(** * library_cli.py: a command-line library catalogue over SQLite

    A shallow embedding of [src/library_cli.py].  The script talks to an
    SQLite file through Python's [sqlite3] module and to the user through
    [input] and [print].  The embedding keeps the three tables as lists of
    rows in rowid order, the console as a list of pending input lines and a
    list of printed lines, and every function of the script as a computation
    in a small state-and-exception monad.

    What the script does not contain is taken as a parameter:
    - the table declarations (the database file is opened, never created):
      the column names are those the SQL text uses, and the two foreign keys
      are described by a [Schema] value giving their ON DELETE behaviour;
    - the clock ([date.today()]), a [date] value.

    Python strings are modelled as sequences of code points below 256.

    Integers are unbounded, as Python's are; SQLite's are signed 64-bit.
    The two meet where a typed id is bound to a statement and where the
    store chooses the rowid of a new row.  The embedding follows the store
    on ids that fit ([int64]) and on tables with room above their largest
    rowid ([rowid_room]); the statements that depend on either say so in
    their hypotheses. *)

From Stdlib Require Import ZArith List String Ascii Bool Lia DecimalString
  Permutation.
Import ListNotations.

Open Scope string_scope.
Open Scope list_scope.
Open Scope Z_scope.

(** String concatenation, Python's [+] on [str]. *)
Infix "+++" := String.append (at level 60, right associativity).

(* ===================================================================== *)
(** ** Python string and integer helpers *)
(* ===================================================================== *)

Module Py.

(** [str.isspace] on one code point below 256. *)
Definition isspace (c : ascii) : bool :=
  let n := nat_of_ascii c in
  ((9 <=? n) && (n <=? 13) || (28 <=? n) && (n <=? 32)
   || (n =? 133) || (n =? 160))%nat.

Fixpoint lstrip (s : string) : string :=
  match s with
  | EmptyString => EmptyString
  | String c r => if isspace c then lstrip r else s
  end.

Fixpoint rstrip (s : string) : string :=
  match s with
  | EmptyString => EmptyString
  | String c r =>
      match rstrip r with
      | EmptyString => if isspace c then EmptyString else String c EmptyString
      | r' => String c r'
      end
  end.

(** [s.strip()] *)
Definition strip (s : string) : string := rstrip (lstrip s).

Definition lower_char (c : ascii) : ascii :=
  let n := nat_of_ascii c in
  if ((65 <=? n) && (n <=? 90)
      || (192 <=? n) && (n <=? 222) && negb (n =? 215))%nat
  then ascii_of_nat (n + 32) else c.

(** [s.lower()] *)
Fixpoint lower (s : string) : string :=
  match s with
  | EmptyString => EmptyString
  | String c r => String (lower_char c) (lower r)
  end.

(** Truthiness of a string: [if s:] *)
Definition truthy (s : string) : bool := negb (s =? "")%string.

Definition isdigit (c : ascii) : bool :=
  let n := nat_of_ascii c in ((48 <=? n) && (n <=? 57))%nat.

Definition digit_value (c : ascii) : Z := Z.of_nat (nat_of_ascii c) - 48.

(** The digits of an [int(...)] argument: decimal digits, with single
    underscores allowed between two digits. *)
Fixpoint digits (s : string) (acc : Z) (after_digit : bool) : option Z :=
  match s with
  | EmptyString => if after_digit then Some acc else None
  | String c r =>
      if isdigit c then digits r (10 * acc + digit_value c) true
      else if (c =? "_")%char
           then if after_digit then digits r acc false else None
           else None
  end.

(** [int(s)]: surrounding whitespace is dropped, one sign is allowed;
    [None] stands for [ValueError]. *)
Definition int (s : string) : option Z :=
  match strip s with
  | String "+" r => digits r 0 false
  | String "-" r => option_map Z.opp (digits r 0 false)
  | t => digits t 0 false
  end.

(** [str(n)] *)
Definition str (n : Z) : string := NilZero.string_of_int (Z.to_int n).

Fixpoint spaces (n : nat) : string :=
  match n with O => "" | S k => String " " (spaces k) end.

(** [f"{s:<n}"] *)
Definition ljust (n : nat) (s : string) : string :=
  s +++ spaces (n - String.length s).

Fixpoint zeros (n : nat) : string :=
  match n with O => "" | S k => String "0" (zeros k) end.

(** [f"{n:0kd}"] for a non-negative [n] *)
Definition zfill (k : nat) (s : string) : string :=
  zeros (k - String.length s) +++ s.

(** ["-" * n] *)
Fixpoint dashes (n : nat) : string :=
  match n with O => "" | S k => String "-" (dashes k) end.

(** [s[:n]] *)
Definition prefix (n : nat) (s : string) : string := substring 0 n s.

End Py.

Definition nl : string := String (ascii_of_nat 10) EmptyString.

(** [date.today()] and its [isoformat()] *)
Record date := mkDate { year : Z; month : Z; day : Z }.

Definition isoformat (d : date) : string :=
  Py.zfill 4 (Py.str (year d)) +++ "-" +++ Py.zfill 2 (Py.str (month d))
  +++ "-" +++ Py.zfill 2 (Py.str (day d)).


(* ===================================================================== *)
(** ** The database: rows, tables and the missing schema *)
(* ===================================================================== *)

(** Columns as the SQL text of the script names them; a column that the
    script reads or writes as [None] is an [option]. *)
Record Author := mkAuthor {
  AuthorID : Z;
  AuthorName : string;
  BirthYear : option Z
}.

Record Book := mkBook {
  BookID : Z;
  Title : string;
  PublicationYear : option Z;
  Book_AuthorID : option Z
}.

Record Borrow := mkBorrow {
  BorrowID : Z;
  Borrow_BookID : option Z;
  BorrowerName : string;
  DateBorrowed : string;
  ReturnDate : option string
}.

(** The three tables, each in rowid order. *)
Record DB := mkDB {
  Authors : list Author;
  Books : list Book;
  Borrows : list Borrow
}.

(** What a foreign key of the (absent) table declarations does when the
    parent row is deleted.  [NoFK]: the column is not declared as a foreign
    key, nothing is checked.  [Restrict]: declared with NO ACTION (SQLite's
    default) or RESTRICT; [SetNull] and [Cascade]: declared with ON DELETE
    SET NULL, ON DELETE CASCADE.  [create_connection] runs
    [PRAGMA foreign_keys = ON], so a declared key is enforced. *)
Inductive fk_action := NoFK | Restrict | SetNull | Cascade.

Record Schema := mkSchema {
  books_author_fk : fk_action;   (* Books.AuthorID -> Authors.AuthorID *)
  borrows_book_fk : fk_action    (* Borrows.BookID -> Books.BookID *)
}.

Definition fk_declared (a : fk_action) : bool :=
  match a with NoFK => false | _ => true end.

(** The text of [sqlite3.IntegrityError] for a foreign key. *)
Definition fk_failed : string := "FOREIGN KEY constraint failed".

(** The rowid SQLite gives to an inserted row: one more than the largest
    rowid in the table, 1 in an empty table.  (Once the largest rowid is
    9223372036854775807 SQLite tries unused rowids at random instead; and a
    table declared with AUTOINCREMENT never reuses the rowid of a deleted
    row.  Neither is modelled: see [rowid_room].) *)
Definition next_rowid (ids : list Z) : Z :=
  match ids with
  | [] => 1
  | i :: r => 1 + fold_right Z.max i r
  end.

(** The integers SQLite stores and [sqlite3] binds to a [?]: beyond them
    [cursor.execute] raises OverflowError, which no function of the script
    catches. *)
Definition int64 (k : Z) : bool :=
  (-9223372036854775808 <=? k) && (k <=? 9223372036854775807).


Definition opt_eqb (o : option Z) (k : Z) : bool :=
  match o with Some v => v =? k | None => false end.

Definition has_author (d : DB) (k : Z) : bool :=
  existsb (fun a => AuthorID a =? k) (Authors d).

Definition has_book (d : DB) (k : Z) : bool :=
  existsb (fun b => BookID b =? k) (Books d).

(** *** SELECT statements *)

(** [cursor.fetchone()] *)
Definition fetchone {A} (rows : list A) : option A := hd_error rows.

(** [SELECT AuthorID FROM Authors WHERE AuthorID = ?] (also with the
    columns AuthorName, BirthYear: the row is returned whole) *)
Definition select_author (d : DB) (k : Z) : list Author :=
  filter (fun a => AuthorID a =? k) (Authors d).

(** [SELECT Title FROM Books WHERE BookID = ?] *)
Definition select_book (d : DB) (k : Z) : list Book :=
  filter (fun b => BookID b =? k) (Books d).

(** [SELECT COUNT( * ) FROM Books WHERE AuthorID = ?] *)
Definition count_books_of_author (d : DB) (k : Z) : Z :=
  Z.of_nat (List.length (filter (fun b => opt_eqb (Book_AuthorID b) k) (Books d))).

Definition is_open (r : Borrow) : bool :=
  match ReturnDate r with None => true | Some _ => false end.

(** [WHERE BookID = ? AND ReturnDate IS NULL] *)
Definition open_for (book_id : Z) (r : Borrow) : bool :=
  opt_eqb (Borrow_BookID r) book_id && is_open r.

(** [SELECT BorrowerName FROM Borrows WHERE BookID = ? AND ReturnDate IS NULL] *)
Definition select_open_borrows (d : DB) (book_id : Z) : list Borrow :=
  filter (open_for book_id) (Borrows d).

(** [SELECT BorrowerName FROM Borrows WHERE BorrowID = ?] (also with the
    column ReturnDate) *)
Definition select_borrow (d : DB) (k : Z) : list Borrow :=
  filter (fun r => BorrowID r =? k) (Borrows d).

(** [FROM Borrows br JOIN Books b ON br.BookID = b.BookID]: one row per
    matching pair. *)
Definition join_borrows_books (d : DB) (keep : Borrow -> bool)
  : list (Borrow * Book) :=
  flat_map (fun br =>
              map (fun b => (br, b))
                  (filter (fun b => opt_eqb (Borrow_BookID br) (BookID b)) (Books d)))
           (filter keep (Borrows d)).

(** [SELECT b.Title, br.BorrowerName FROM Borrows br JOIN Books b ...
     WHERE br.BorrowID = ? AND br.ReturnDate IS NULL] *)
Definition select_outstanding_borrow (d : DB) (k : Z) : list (Borrow * Book) :=
  join_borrows_books d (fun br => (BorrowID br =? k) && is_open br).

(** [ORDER BY]: a stable insertion sort of the scanned rows; [le] is the
    order of the sort key (text compares byte by byte). *)
Fixpoint insert_sorted {A} (le : A -> A -> bool) (x : A) (l : list A) : list A :=
  match l with
  | [] => [x]
  | y :: r => if le x y then x :: l else y :: insert_sorted le x r
  end.

Fixpoint order_by {A} (le : A -> A -> bool) (l : list A) : list A :=
  match l with
  | [] => []
  | x :: r => insert_sorted le x (order_by le r)
  end.

(** [SELECT * FROM Authors ORDER BY AuthorName] *)
Definition select_authors_ordered (d : DB) : list Author :=
  order_by (fun a b => String.leb (AuthorName a) (AuthorName b)) (Authors d).

(** [SELECT b.BookID, b.Title, b.PublicationYear, a.AuthorName FROM Books b
     LEFT JOIN Authors a ON b.AuthorID = a.AuthorID ORDER BY b.Title] *)
Definition left_join_author (d : DB) (b : Book) : list (Book * option string) :=
  match filter (fun a => opt_eqb (Book_AuthorID b) (AuthorID a)) (Authors d) with
  | [] => [(b, None)]
  | matches => map (fun a => (b, Some (AuthorName a))) matches
  end.

Definition select_books_ordered (d : DB) : list (Book * option string) :=
  order_by (fun x y => String.leb (Title (fst x)) (Title (fst y)))
           (flat_map (left_join_author d) (Books d)).

(** [SELECT br.BorrowID, b.Title, br.BorrowerName, br.DateBorrowed,
     br.ReturnDate FROM Borrows br JOIN Books b ON br.BookID = b.BookID
     {sql_filter} ORDER BY br.DateBorrowed DESC] *)
Definition select_borrows_ordered (d : DB) (only_outstanding : bool)
  : list (Borrow * Book) :=
  order_by (fun x y => String.leb (DateBorrowed (fst y)) (DateBorrowed (fst x)))
           (join_borrows_books d
              (fun br => if only_outstanding then is_open br else true)).

(** *** INSERT, UPDATE and DELETE statements

    Each returns the new tables, or the text of the [IntegrityError] the
    statement raises; a statement that raises changes nothing. *)

(** [INSERT INTO Authors (AuthorName, BirthYear) VALUES (?, ?)], with
    [cursor.lastrowid] *)
Definition sql_insert_author (d : DB) (name : string) (birth_year : option Z)
  : DB * Z :=
  let k := next_rowid (map AuthorID (Authors d)) in
  (mkDB (Authors d ++ [mkAuthor k name birth_year]) (Books d) (Borrows d), k).

(** [INSERT INTO Books (Title, PublicationYear, AuthorID) VALUES (?, ?, ?)] *)
Definition sql_insert_book (sch : Schema) (d : DB) (title : string)
    (pub_year author_id : option Z) : string + DB * Z :=
  let k := next_rowid (map BookID (Books d)) in
  let d' := mkDB (Authors d) (Books d ++ [mkBook k title pub_year author_id])
                 (Borrows d) in
  match author_id with
  | Some a =>
      if fk_declared (books_author_fk sch) && negb (has_author d a)
      then inl fk_failed else inr (d', k)
  | None => inr (d', k)
  end.

(** [INSERT INTO Borrows (BookID, BorrowerName, DateBorrowed) VALUES (?, ?, ?)];
    ReturnDate is left to its default, NULL. *)
Definition sql_insert_borrow (sch : Schema) (d : DB) (book_id : Z)
    (borrower_name borrow_date : string) : string + DB * Z :=
  let k := next_rowid (map BorrowID (Borrows d)) in
  if fk_declared (borrows_book_fk sch) && negb (has_book d book_id)
  then inl fk_failed
  else inr (mkDB (Authors d) (Books d)
              (Borrows d ++ [mkBorrow k (Some book_id) borrower_name borrow_date None]),
            k).

(** [UPDATE Books SET Title = ? WHERE BookID = ?] *)
Definition sql_update_book_title (d : DB) (new_title : string) (k : Z) : DB :=
  mkDB (Authors d)
       (map (fun b => if BookID b =? k
                      then mkBook (BookID b) new_title (PublicationYear b) (Book_AuthorID b)
                      else b) (Books d))
       (Borrows d).

(** [UPDATE Authors SET AuthorName = ?, BirthYear = ? WHERE AuthorID = ?] *)
Definition sql_update_author (d : DB) (new_name : string)
    (new_birth_year : option Z) (k : Z) : DB :=
  mkDB (map (fun a => if AuthorID a =? k
                      then mkAuthor (AuthorID a) new_name new_birth_year
                      else a) (Authors d))
       (Books d) (Borrows d).

(** [UPDATE Borrows SET ReturnDate = ? WHERE BorrowID = ?] *)
Definition sql_update_return (d : DB) (return_date : string) (k : Z) : DB :=
  mkDB (Authors d) (Books d)
       (map (fun r => if BorrowID r =? k
                      then mkBorrow (BorrowID r) (Borrow_BookID r) (BorrowerName r)
                                    (DateBorrowed r) (Some return_date)
                      else r) (Borrows d)).

(** The Borrows rows after the Books rows whose key satisfies [gone] were
    deleted; [None] when the foreign key forbids the deletion.  ([SetNull]
    is the action on a nullable Borrows.BookID; on a column declared NOT
    NULL the store refuses to null it.) *)
Definition refers_to (gone : Z -> bool) (o : option Z) : bool :=
  match o with Some k => gone k | None => false end.

Definition borrows_after_delete (act : fk_action) (gone : Z -> bool)
    (rows : list Borrow) : option (list Borrow) :=
  match act with
  | NoFK => Some rows
  | Restrict =>
      if existsb (fun r => refers_to gone (Borrow_BookID r)) rows
      then None else Some rows
  | SetNull =>
      Some (map (fun r => if refers_to gone (Borrow_BookID r)
                          then mkBorrow (BorrowID r) None (BorrowerName r)
                                        (DateBorrowed r) (ReturnDate r)
                          else r) rows)
  | Cascade =>
      Some (filter (fun r => negb (refers_to gone (Borrow_BookID r))) rows)
  end.

(** Deleting the Books rows that satisfy [doomed], with the action of the
    Borrows foreign key. *)
Definition delete_books_where (sch : Schema) (doomed : Book -> bool)
    (books : list Book) (borrows : list Borrow)
  : option (list Book * list Borrow) :=
  let gone := fun k => existsb (fun b => doomed b && (BookID b =? k)) books in
  match borrows_after_delete (borrows_book_fk sch) gone borrows with
  | Some borrows' => Some (filter (fun b => negb (doomed b)) books, borrows')
  | None => None
  end.

(** [DELETE FROM Books WHERE BookID = ?] *)
Definition sql_delete_book (sch : Schema) (d : DB) (k : Z) : string + DB :=
  match delete_books_where sch (fun b => BookID b =? k) (Books d) (Borrows d) with
  | Some (books', borrows') => inr (mkDB (Authors d) books' borrows')
  | None => inl fk_failed
  end.

(** [DELETE FROM Authors WHERE AuthorID = ?] *)
Definition sql_delete_author (sch : Schema) (d : DB) (k : Z) : string + DB :=
  let authors' := filter (fun a => negb (AuthorID a =? k)) (Authors d) in
  let orphan := fun b => has_author d k && opt_eqb (Book_AuthorID b) k in
  match books_author_fk sch with
  | NoFK => inr (mkDB authors' (Books d) (Borrows d))
  | Restrict =>
      if existsb orphan (Books d) then inl fk_failed
      else inr (mkDB authors' (Books d) (Borrows d))
  | SetNull =>
      inr (mkDB authors'
             (map (fun b => if orphan b
                            then mkBook (BookID b) (Title b) (PublicationYear b) None
                            else b) (Books d))
             (Borrows d))
  | Cascade =>
      match delete_books_where sch orphan (Books d) (Borrows d) with
      | Some (books', borrows') => inr (mkDB authors' books' borrows')
      | None => inl fk_failed
      end
  end.


(* ===================================================================== *)
(** ** Console, exceptions and the monad of the script's functions *)
(* ===================================================================== *)

(** The exceptions the script can meet: [int()] on a malformed string, a
    foreign key rejected by the store ([sqlite3.IntegrityError], a subclass
    of [sqlite3.Error]), and [input()] at the end of the input.
    (OverflowError, raised when an integer that is not [int64] is bound to
    a statement, is not among them: such ids are outside the embedding.) *)
Inductive exn := ValueError | IntegrityError (msg : string) | EOFError.

Inductive outcome (A : Type) :=
| Return (a : A)
| Raised (e : exn).
Arguments Return {A} a.
Arguments Raised {A} e.

(** The connection's tables, the lines still to be typed, the lines
    printed so far (prompts included). *)
Record World := mkWorld {
  db : DB;
  stdin : list string;
  stdout : list string
}.

Definition M (A : Type) : Type := World -> outcome A * World.

Definition ret {A} (a : A) : M A := fun w => (Return a, w).

Definition bind {A B} (m : M A) (f : A -> M B) : M B :=
  fun w => match m w with
           | (Return a, w') => f a w'
           | (Raised e, w') => (Raised e, w')
           end.

Notation "x <- m ;; k" := (bind m (fun x => k))
  (at level 61, m at next level, right associativity).
Notation "m ;; k" := (bind m (fun _ => k))
  (at level 61, right associativity).

Definition raise {A} (e : exn) : M A := fun w => (Raised e, w).

(** [try: m  except ...: h] *)
Definition try_except {A} (m : M A) (h : exn -> M A) : M A :=
  fun w => match m w with
           | (Raised e, w') => h e w'
           | r => r
           end.

(** [print(s)] *)
Definition print (s : string) : M unit :=
  fun w => (Return tt, mkWorld (db w) (stdin w) (stdout w ++ [s])).

(** [for row in rows: print(line(row))] *)
Definition print_each (lines : list string) : M unit :=
  fun w => (Return tt, mkWorld (db w) (stdin w) (stdout w ++ lines)).

(** [input(prompt)] *)
Definition input (prompt : string) : M string :=
  fun w => match stdin w with
           | [] => (Raised EOFError, mkWorld (db w) [] (stdout w ++ [prompt]))
           | s :: rest => (Return s, mkWorld (db w) rest (stdout w ++ [prompt]))
           end.

(** [int(s)] *)
Definition int_ (s : string) : M Z :=
  match Py.int s with
  | Some n => ret n
  | None => raise ValueError
  end.

(** A query: [cursor.execute("SELECT ...")] and the rows it yields; the
    integers bound to it are taken to be [int64]. *)
Definition query {A} (q : DB -> A) : M A := fun w => (Return (q (db w)), w).

(** [cursor.execute("INSERT ...")], giving [cursor.lastrowid]. *)
Definition execute_insert (stmt : DB -> string + DB * Z) : M Z :=
  fun w => match stmt (db w) with
           | inl msg => (Raised (IntegrityError msg), w)
           | inr (d, k) => (Return k, mkWorld d (stdin w) (stdout w))
           end.

(** [cursor.execute("UPDATE ...")] or [cursor.execute("DELETE ...")]. *)
Definition execute (stmt : DB -> string + DB) : M unit :=
  fun w => match stmt (db w) with
           | inl msg => (Raised (IntegrityError msg), w)
           | inr d => (Return tt, mkWorld d (stdin w) (stdout w))
           end.

(** [conn.commit()]: a statement that did not raise is kept.  (A
    statement that is never committed is kept as well: the tables are
    those the connection sees, not those of the file.) *)
Definition commit : M unit := ret tt.

(* ===================================================================== *)
(** ** The functions of library_cli.py *)
(* ===================================================================== *)

(** [str(x) if x else "Unknown"] on a year column: [None] and [0] are
    both false. *)
Definition year_cell (y : option Z) : string :=
  match y with
  | Some n => if n =? 0 then "Unknown" else Py.str n
  | None => "Unknown"
  end.

(** [s[:k] + "..." if len(s) > n else s] *)
Definition clip (n k : nat) (s : string) : string :=
  if (n <? String.length s)%nat then Py.prefix k s +++ "..." else s.

Definition author_line (author : Author) : string :=
  let birth_year := year_cell (BirthYear author) in
  let name := clip 30 27 (AuthorName author) in
  Py.ljust 4 (Py.str (AuthorID author)) +++ " " +++ Py.ljust 30 name
  +++ " " +++ Py.ljust 10 birth_year.

Definition view_authors : M unit :=
  print (nl +++ "--- All Authors ---") ;;
  all_authors <- query select_authors_ordered ;;
  match all_authors with
  | _ :: _ =>
      print (Py.ljust 4 "ID" +++ " " +++ Py.ljust 30 "Name" +++ " "
             +++ Py.ljust 10 "Birth Year") ;;
      print (Py.dashes 45) ;;
      print_each (map author_line all_authors) ;;
      print (nl +++ "Total authors: "
             +++ Py.str (Z.of_nat (List.length all_authors)))
  | [] => print "No authors found."
  end.

Definition book_line (book : Book * option string) : string :=
  let author_name :=
    match snd book with
    | Some a => if Py.truthy a then a else "Unknown Author"
    | None => "Unknown Author"
    end in
  let pub_year := year_cell (PublicationYear (fst book)) in
  let title := clip 30 27 (Title (fst book)) in
  Py.ljust 4 (Py.str (BookID (fst book))) +++ " " +++ Py.ljust 30 title
  +++ " " +++ Py.ljust 6 pub_year +++ " " +++ Py.ljust 20 author_name.

Definition view_all_books : M unit :=
  print (nl +++ "--- All Books in the Library ---") ;;
  all_books <- query select_books_ordered ;;
  match all_books with
  | _ :: _ =>
      print (Py.ljust 4 "ID" +++ " " +++ Py.ljust 30 "Title" +++ " "
             +++ Py.ljust 6 "Year" +++ " " +++ Py.ljust 20 "Author") ;;
      print (Py.dashes 65) ;;
      print_each (map book_line all_books) ;;
      print (nl +++ "Total books: "
             +++ Py.str (Z.of_nat (List.length all_books)))
  | [] => print "No books found in the library."
  end.

Definition borrow_line (borrow : Borrow * Book) : string :=
  let return_status :=
    match ReturnDate (fst borrow) with
    | Some r => if Py.truthy r then r else "Not Returned"
    | None => "Not Returned"
    end in
  let title := clip 25 22 (Title (snd borrow)) in
  let borrower := clip 20 17 (BorrowerName (fst borrow)) in
  Py.ljust 4 (Py.str (BorrowID (fst borrow))) +++ " " +++ Py.ljust 25 title
  +++ " " +++ Py.ljust 20 borrower +++ " "
  +++ Py.ljust 12 (DateBorrowed (fst borrow)) +++ " "
  +++ Py.ljust 12 return_status.

Definition view_borrowed_books (only_outstanding : bool) : M unit :=
  (if only_outstanding
   then print (nl +++ "--- Currently Borrowed Books ---")
   else print (nl +++ "--- All Borrow History ---")) ;;
  all_borrows <- query (fun d => select_borrows_ordered d only_outstanding) ;;
  match all_borrows with
  | _ :: _ =>
      print (Py.ljust 4 "ID" +++ " " +++ Py.ljust 25 "Title" +++ " "
             +++ Py.ljust 20 "Borrower" +++ " " +++ Py.ljust 12 "Borrowed"
             +++ " " +++ Py.ljust 12 "Returned") ;;
      print (Py.dashes 75) ;;
      print_each (map borrow_line all_borrows) ;;
      print (nl +++ "Total records: "
             +++ Py.str (Z.of_nat (List.length all_borrows)))
  | [] =>
      if only_outstanding
      then print "No books are currently borrowed."
      else print "No borrow records found."
  end.

Section Operations.

Variable sch : Schema.
Variable today : date.

(** [birth_year < 0 or birth_year > current_year] *)
Definition bad_birth_year (birth_year : Z) : bool :=
  let current_year := year today in
  (birth_year <? 0) || (birth_year >? current_year).

(** [pub_year < 0 or pub_year > date.today().year + 10] *)
Definition bad_pub_year (pub_year : Z) : bool :=
  (pub_year <? 0) || (pub_year >? year today + 10).

Definition birth_year_error : string :=
  "Error: Please enter a reasonable birth year (0-" +++ Py.str (year today)
  +++ ").".

Definition add_author : M bool :=
  print (nl +++ "--- Add a New Author ---") ;;
  name <- input "Enter author's name: " ;;
  let name := Py.strip name in
  if negb (Py.truthy name) then
    print "Error: Author name cannot be empty." ;; ret false
  else
    try_except
      (birth_year <- input "Enter author's birth year (leave empty if unknown): " ;;
       let birth_year := Py.strip birth_year in
       let insert := fun birth_year : option Z =>
         author_id <- execute_insert
                        (fun d => inr (sql_insert_author d name birth_year)) ;;
         commit ;;
         row <- query (fun d => fetchone (select_author d author_id)) ;;
         match row with
         | Some _ =>
             print ("Success! Author '" +++ name +++ "' was added with ID: "
                    +++ Py.str author_id) ;;
             print "✓ Changes have been saved to the database." ;;
             ret true
         | None => print "Error: Author insertion failed!" ;; ret false
         end in
       if Py.truthy birth_year then
         birth_year <- int_ birth_year ;;
         if bad_birth_year birth_year then
           print birth_year_error ;; ret false
         else insert (Some birth_year)
       else insert None)
      (fun e =>
         match e with
         | ValueError =>
             print "Error: Please enter a valid number for birth year." ;;
             ret false
         | IntegrityError msg => print ("Database error: " +++ msg) ;; ret false
         | EOFError => raise EOFError
         end).

Definition add_book : M bool :=
  print (nl +++ "--- Add a New Book ---") ;;
  title <- input "Enter book title: " ;;
  let title := Py.strip title in
  if negb (Py.truthy title) then
    print "Error: Book title cannot be empty." ;; ret false
  else
    try_except
      (pub_year <- input "Enter publication year (leave empty if unknown): " ;;
       let pub_year := Py.strip pub_year in
       let insert := fun (pub_year author_id : option Z) =>
         book_id <- execute_insert
                      (fun d => sql_insert_book sch d title pub_year author_id) ;;
         commit ;;
         row <- query (fun d => fetchone (select_book d book_id)) ;;
         match row with
         | Some _ =>
             print ("Success! Book '" +++ title +++ "' was added with ID: "
                    +++ Py.str book_id) ;;
             print "✓ Changes have been saved to the database." ;;
             ret true
         | None => print "Error: Book insertion failed!" ;; ret false
         end in
       let choose := fun pub_year : option Z =>
         print (nl +++ "Current authors in the database:") ;;
         view_authors ;;
         choice <- input (nl +++ "Do you want to:" +++ nl
                          +++ "1. Use an existing author" +++ nl
                          +++ "2. Add a new author" +++ nl
                          +++ "3. Skip author (set to None)" +++ nl
                          +++ "Enter choice (1-3): ") ;;
         let choice := Py.strip choice in
         if (choice =? "1")%string then
           author_id_input <- input "Enter the AuthorID for the book's author: " ;;
           let author_id_input := Py.strip author_id_input in
           if Py.truthy author_id_input then
             author_id <- int_ author_id_input ;;
             row <- query (fun d => fetchone (select_author d author_id)) ;;
             match row with
             | None => print "Error: Author ID not found." ;; ret false
             | Some _ => insert pub_year (Some author_id)
             end
           else insert pub_year None
         else if (choice =? "2")%string then
           print (nl +++ "Adding new author first:") ;;
           added <- add_author ;;
           if added then
             print (nl +++ "Now showing updated author list:") ;;
             view_authors ;;
             author_id_input <-
               input "Enter the AuthorID for the newly added author: " ;;
             let author_id_input := Py.strip author_id_input in
             if Py.truthy author_id_input then
               author_id <- int_ author_id_input ;;
               insert pub_year (Some author_id)
             else insert pub_year None
           else
             print "Failed to add new author. Book will be added without author." ;;
             insert pub_year None
         else if (choice =? "3")%string then insert pub_year None
         else
           print "Invalid choice. Book will be added without author." ;;
           insert pub_year None in
       if Py.truthy pub_year then
         pub_year <- int_ pub_year ;;
         if bad_pub_year pub_year then
           print "Error: Please enter a reasonable publication year." ;;
           ret false
         else choose (Some pub_year)
       else choose None)
      (fun e =>
         match e with
         | ValueError =>
             print "Error: Please enter valid numbers for publication year and author ID." ;;
             ret false
         | IntegrityError msg =>
             print ("Error adding book: " +++ msg) ;;
             print "Make sure the Author ID exists in the Authors table." ;;
             ret false
         | EOFError => raise EOFError
         end).

(** The handlers shared by the remaining functions:
    [except ValueError] with its message, then [except sqlite3.Error]. *)
Definition handlers (value_error : string) (e : exn) : M bool :=
  match e with
  | ValueError => print value_error ;; ret false
  | IntegrityError msg => print ("Database error: " +++ msg) ;; ret false
  | EOFError => raise EOFError
  end.

Definition update_book_title : M bool :=
  print (nl +++ "--- Update a Book's Title ---") ;;
  view_all_books ;;
  try_except
    (s <- input "Enter the ID of the book you want to update: " ;;
     book_id <- int_ s ;;
     book <- query (fun d => fetchone (select_book d book_id)) ;;
     match book with
     | None => print "Error: No book found with that ID." ;; ret false
     | Some book =>
         print ("Current title: '" +++ Title book +++ "'") ;;
         new_title <- input "Enter the new title: " ;;
         let new_title := Py.strip new_title in
         if negb (Py.truthy new_title) then
           print "Error: Title cannot be empty." ;; ret false
         else
           execute (fun d => inr (sql_update_book_title d new_title book_id)) ;;
           commit ;;
           updated_book <- query (fun d => fetchone (select_book d book_id)) ;;
           match updated_book with
           | Some b =>
               if (Title b =? new_title)%string then
                 print "✓ Book title updated successfully!" ;;
                 print "✓ Changes have been saved to the database." ;;
                 ret true
               else print "Error: Update verification failed!" ;; ret false
           | None => print "Error: Update verification failed!" ;; ret false
           end
     end)
    (handlers "Invalid ID. Please enter a number.").

Definition delete_book : M bool :=
  print (nl +++ "--- Delete a Book ---") ;;
  view_all_books ;;
  try_except
    (s <- input "Enter the ID of the book you want to delete: " ;;
     book_id <- int_ s ;;
     book <- query (fun d => fetchone (select_book d book_id)) ;;
     match book with
     | None => print "Error: No book found with that ID." ;; ret false
     | Some book =>
         confirm <- input ("Are you sure you want to delete '" +++ Title book
                           +++ "'? This will also delete its borrow records. (yes/no): ") ;;
         let confirm := Py.strip (Py.lower confirm) in
         if (confirm =? "yes")%string then
           execute (fun d => sql_delete_book sch d book_id) ;;
           commit ;;
           row <- query (fun d => fetchone (select_book d book_id)) ;;
           match row with
           | None =>
               print "✓ Book deleted successfully!" ;;
               print "✓ Changes have been saved to the database." ;;
               ret true
           | Some _ => print "Error: Deletion verification failed!" ;; ret false
           end
         else print "Delete canceled." ;; ret false
     end)
    (handlers "Invalid ID. Please enter a number.").

Definition update_author : M bool :=
  print (nl +++ "--- Update Author Information ---") ;;
  view_authors ;;
  try_except
    (s <- input "Enter the ID of the author you want to update: " ;;
     author_id <- int_ s ;;
     author <- query (fun d => fetchone (select_author d author_id)) ;;
     match author with
     | None => print "Error: No author found with that ID." ;; ret false
     | Some author =>
         print ("Current name: '" +++ AuthorName author +++ "'") ;;
         print ("Current birth year: " +++ year_cell (BirthYear author)) ;;
         new_name <- input "Enter the new name (press Enter to keep current): " ;;
         let new_name := Py.strip new_name in
         let new_name := if negb (Py.truthy new_name)
                         then AuthorName author else new_name in
         new_birth_year_input <-
           input "Enter the new birth year (press Enter to keep current): " ;;
         let new_birth_year_input := Py.strip new_birth_year_input in
         let update := fun new_birth_year : option Z =>
           execute (fun d => inr (sql_update_author d new_name new_birth_year
                                                     author_id)) ;;
           commit ;;
           updated_author <- query (fun d => fetchone (select_author d author_id)) ;;
           match updated_author with
           | Some a =>
               if (AuthorName a =? new_name)%string then
                 print "✓ Author information updated successfully!" ;;
                 print "✓ Changes have been saved to the database." ;;
                 ret true
               else print "Error: Update verification failed!" ;; ret false
           | None => print "Error: Update verification failed!" ;; ret false
           end in
         if Py.truthy new_birth_year_input then
           new_birth_year <- int_ new_birth_year_input ;;
           if bad_birth_year new_birth_year then
             print birth_year_error ;; ret false
           else update (Some new_birth_year)
         else update (BirthYear author)
     end)
    (handlers "Invalid input. Please enter valid numbers.").

(** [f" This will affect {book_count} book(s)." if book_count > 0 else ""] *)
Definition affect_warning (book_count : Z) : string :=
  if book_count >? 0
  then " This will affect " +++ Py.str book_count +++ " book(s)."
  else "".

Definition delete_author : M bool :=
  print (nl +++ "--- Delete an Author ---") ;;
  view_authors ;;
  try_except
    (s <- input "Enter the ID of the author you want to delete: " ;;
     author_id <- int_ s ;;
     author <- query (fun d => fetchone (select_author d author_id)) ;;
     match author with
     | None => print "Error: No author found with that ID." ;; ret false
     | Some author =>
         book_count <- query (fun d => count_books_of_author d author_id) ;;
         let warning := affect_warning book_count in
         confirm <- input ("Are you sure you want to delete '"
                           +++ AuthorName author +++ "'?" +++ warning
                           +++ " (yes/no): ") ;;
         let confirm := Py.strip (Py.lower confirm) in
         if (confirm =? "yes")%string then
           execute (fun d => sql_delete_author sch d author_id) ;;
           commit ;;
           row <- query (fun d => fetchone (select_author d author_id)) ;;
           match row with
           | None =>
               print "✓ Author deleted successfully!" ;;
               print "✓ Changes have been saved to the database." ;;
               ret true
           | Some _ => print "Error: Deletion verification failed!" ;; ret false
           end
         else print "Delete canceled." ;; ret false
     end)
    (handlers "Invalid ID. Please enter a number.").

Definition borrowed_by (name : string) : string :=
  "Sorry, this book is currently borrowed by " +++ name +++ ".".

Definition borrow_book : M bool :=
  print (nl +++ "--- Borrow a Book ---") ;;
  view_all_books ;;
  try_except
    (s <- input "Enter the ID of the book to borrow: " ;;
     book_id <- int_ s ;;
     borrower_name <- input "Enter borrower's name: " ;;
     let borrower_name := Py.strip borrower_name in
     if negb (Py.truthy borrower_name) then
       print "Error: Borrower name cannot be empty." ;; ret false
     else
       book <- query (fun d => fetchone (select_book d book_id)) ;;
       match book with
       | None => print "Error: That Book ID does not exist." ;; ret false
       | Some book =>
           current_borrower <-
             query (fun d => fetchone (select_open_borrows d book_id)) ;;
           match current_borrower with
           | Some current_borrower =>
               print (borrowed_by (BorrowerName current_borrower)) ;; ret false
           | None =>
               let borrow_date := isoformat today in
               borrow_id <- execute_insert
                              (fun d => sql_insert_borrow sch d book_id
                                          borrower_name borrow_date) ;;
               commit ;;
               row <- query (fun d => fetchone (select_borrow d borrow_id)) ;;
               match row with
               | Some _ =>
                   print ("Success! Book '" +++ Title book +++ "' borrowed by "
                          +++ borrower_name +++ ".") ;;
                   print "✓ Borrow record has been saved to the database." ;;
                   ret true
               | None => print "Error: Borrow record creation failed!" ;; ret false
               end
           end
       end)
    (handlers "Invalid ID. Please enter a number.").

(** [updated_record and updated_record[0]] *)
Definition return_recorded (updated_record : option Borrow) : bool :=
  match updated_record with
  | Some r => match ReturnDate r with
              | Some dt => Py.truthy dt
              | None => false
              end
  | None => false
  end.

Definition no_outstanding : string :=
  "Error: No outstanding borrow found with that ID.".

Definition return_book : M bool :=
  print (nl +++ "--- Return a Book ---") ;;
  view_borrowed_books true ;;
  try_except
    (s <- input "Enter the Borrow ID of the book you are returning: " ;;
     borrow_id <- int_ s ;;
     borrow_info <- query (fun d => fetchone (select_outstanding_borrow d borrow_id)) ;;
     match borrow_info with
     | None => print no_outstanding ;; ret false
     | Some borrow_info =>
         let return_date := isoformat today in
         execute (fun d => inr (sql_update_return d return_date borrow_id)) ;;
         commit ;;
         updated_record <- query (fun d => fetchone (select_borrow d borrow_id)) ;;
         if return_recorded updated_record then
           print ("Success! '" +++ Title (snd borrow_info) +++ "' returned by "
                  +++ BorrowerName (fst borrow_info) +++ ".") ;;
           print "✓ Return has been recorded in the database." ;;
           ret true
         else print "Error: Return recording failed!" ;; ret false
     end)
    (handlers "Invalid ID. Please enter a number.").

(** The mutating entries of [main_menu]: choices 2-4, 6-8, 9 and 10. *)
Inductive operation :=
| AddBook | UpdateBookTitle | DeleteBook
| AddAuthor | UpdateAuthor | DeleteAuthor
| BorrowBook | ReturnBook.

Definition run (op : operation) : M bool :=
  match op with
  | AddBook => add_book
  | UpdateBookTitle => update_book_title
  | DeleteBook => delete_book
  | AddAuthor => add_author
  | UpdateAuthor => update_author
  | DeleteAuthor => delete_author
  | BorrowBook => borrow_book
  | ReturnBook => return_book
  end.

(** The menu loop on a list of choices: an exception that leaves a
    function is caught by the loop ([except Exception]), which goes on. *)
Fixpoint run_all (ops : list operation) (w : World) : World :=
  match ops with
  | [] => w
  | op :: rest => run_all rest (snd (run op w))
  end.

End Operations.

(* ===================================================================== *)
(** ** Properties of states and of runs *)
(* ===================================================================== *)

(** What a function prints on a database when nothing was printed before
    (used for the listings, which read no input). *)
Definition printed {A} (m : M A) (d : DB) : list string :=
  stdout (snd (m (mkWorld d [] []))).

(** The borrow invariant: for every BookID, at most one Borrows row with
    that BookID has ReturnDate NULL. *)
Definition single_open (d : DB) : Prop :=
  forall book_id, (List.length (select_open_borrows d book_id) <= 1)%nat.

(** Primary keys: no two rows of a table share their id. *)
Definition unique_borrow_ids (d : DB) : Prop := NoDup (map BorrowID (Borrows d)).
Definition unique_author_ids (d : DB) : Prop := NoDup (map AuthorID (Authors d)).

Definition has_borrow (d : DB) (k : Z) : bool :=
  existsb (fun r => BorrowID r =? k) (Borrows d).

(** Some Borrows row refers to book [k]. *)
Definition borrowed_ever (d : DB) (k : Z) : bool :=
  existsb (fun r => opt_eqb (Borrow_BookID r) k) (Borrows d).

(** The Borrows row [k] is still in the table after each operation of a
    run (it was not removed along with its book). *)
Fixpoint kept (sch : Schema) (today : date) (k : Z) (ops : list operation)
    (w : World) : Prop :=
  match ops with
  | [] => True
  | op :: rest =>
      has_borrow (db (snd (run sch today op w))) k = true
      /\ kept sch today k rest (snd (run sch today op w))
  end.

(** What one operation can do to the Borrows table: nothing, the INSERT
    of [borrow_book] (reached only when the book has no open row), the
    UPDATE of [return_book] (reached only when row [k] is open), or the
    foreign-key action that follows a DELETE on Books. *)
Inductive borrows_step (today : date) (rows : list Borrow)
  : list Borrow -> Prop :=
| bs_same : borrows_step today rows rows
| bs_insert book_id name :
    filter (open_for book_id) rows = [] ->
    borrows_step today rows
      (rows ++ [mkBorrow (next_rowid (map BorrowID rows)) (Some book_id) name
                         (isoformat today) None])
| bs_return k :
    existsb (fun r => (BorrowID r =? k) && is_open r) rows = true ->
    borrows_step today rows
      (map (fun r => if BorrowID r =? k
                     then mkBorrow (BorrowID r) (Borrow_BookID r) (BorrowerName r)
                                   (DateBorrowed r) (Some (isoformat today))
                     else r) rows)
| bs_delete act gone rows' :
    borrows_after_delete act gone rows = Some rows' ->
    borrows_step today rows rows'.


(** What a year prompt accepts, as [add_author], [add_book] and
    [update_author] read it: an empty line is "no year" ([Some None]), a
    line that [int] parses to a year in range is that year; anything else
    is refused ([None]). *)
Definition year_input (bad : Z -> bool) (s : string) : option (option Z) :=
  if Py.truthy (Py.strip s)
  then match Py.int (Py.strip s) with
       | Some n => if bad n then None else Some (Some n)
       | None => None
       end
  else Some None.


(* ===================================================================== *)
(** ** Start-up and the menu loop *)
(* ===================================================================== *)

(** What [create_connection] and [verify_database_structure] ask of the
    machine: whether the database file is there, the working directory and
    its files (printed when the file is missing), and the names of the
    tables listed in [sqlite_master]. *)
Record Machine := mkMachine {
  file_exists : bool;
  getcwd : string;
  listdir : list string;
  table_names : list string
}.

Definition DATABASE_FILE : string := "libraryDB.sqlite".

(** [", ".join(items)] *)
Fixpoint join_comma (items : list string) : string :=
  match items with
  | [] => ""
  | [x] => x
  | x :: rest => x +++ ", " +++ join_comma rest
  end.

(** [str] of a list of strings: each name between single quotes (the
    escapes of [repr] are not modelled: the names are plain identifiers). *)
Definition str_list (items : list string) : string :=
  "[" +++ join_comma (map (fun s => "'" +++ s +++ "'") items) +++ "]".

(** [t in names] *)
Definition mem_string (t : string) (names : list string) : bool :=
  existsb (fun n => (n =? t)%string) names.

(** Returns whether a connection was obtained ([conn] or [None]).  A file
    that is there is taken to be a database SQLite can open: the
    [except sqlite3.Error] branch is not reached. *)
Definition create_connection (m : Machine) : M bool :=
  if negb (file_exists m) then
    print ("Error: Database file '" +++ DATABASE_FILE +++ "' not found!") ;;
    print "Please make sure your database file is in the same directory as this script." ;;
    print ("Current directory: " +++ getcwd m) ;;
    print ("Files in current directory: " +++ str_list (listdir m)) ;;
    ret false
  else
    print ("Successfully connected to database: " +++ DATABASE_FILE) ;;
    let table_count := Z.of_nat (List.length (table_names m)) in
    print ("Database contains " +++ Py.str table_count +++ " tables") ;;
    ret true.

Definition required_tables : list string := ["Authors"; "Books"; "Borrows"].

(** [SELECT COUNT( * ) FROM {table}] for the three required tables *)
Definition count_rows (d : DB) (table : string) : Z :=
  if (table =? "Authors")%string then Z.of_nat (List.length (Authors d))
  else if (table =? "Books")%string then Z.of_nat (List.length (Books d))
  else Z.of_nat (List.length (Borrows d)).

Definition verify_database_structure (m : Machine) : M bool :=
  let existing_tables := table_names m in
  print ("Found tables in database: " +++ str_list existing_tables) ;;
  let missing_tables :=
    filter (fun table => negb (mem_string table existing_tables))
           required_tables in
  match missing_tables with
  | _ :: _ =>
      print ("Warning: Missing tables in database: " +++ str_list missing_tables) ;;
      ret false
  | [] =>
      print "Database structure verified successfully." ;;
      counts <- query (fun d => map (fun table =>
                                       "  " +++ table +++ ": "
                                       +++ Py.str (count_rows d table)
                                       +++ " records") required_tables) ;;
      print_each counts ;;
      ret true
  end.

(** [str(e)] in the menu's [except Exception]. For a [ValueError] Python
    adds the offending literal, which the exception of this model does not
    carry; no function of the script lets one escape. *)
Definition exn_text (e : exn) : string :=
  match e with
  | ValueError => "invalid literal for int() with base 10"
  | IntegrityError msg => msg
  | EOFError => "EOF when reading a line"
  end.

Definition menu_lines : list string :=
  [nl +++ "===== Library Menu ====="; "Books:"; "1. View all books";
   "2. Add a new book"; "3. Update a book's title"; "4. Delete a book";
   "---"; "Authors:"; "5. View all authors"; "6. Add a new author";
   "7. Update author information"; "8. Delete an author"; "---";
   "Borrowing:"; "9. Borrow a book"; "10. Return a book";
   "11. View currently borrowed books"; "12. View all borrow history";
   "---"; "13. Test database connection"; "14. Exit";
   "========================"].

Section Session.

Variable sch : Schema.
Variable today : date.

Definition test_database_connection : M bool :=
  print (nl +++ "--- Database Connection Test ---") ;;
  try_except
    (print "Testing database write capability..." ;;
     test_id <- execute_insert
                  (fun d => inr (sql_insert_author d "Test Author" (Some 2000))) ;;
     result <- query (fun d => fetchone (select_author d test_id)) ;;
     let passed := match result with
                   | Some a => (AuthorName a =? "Test Author")%string
                   | None => false
                   end in
     if passed then
       print "✓ Database write/read test successful!" ;;
       execute (fun d => sql_delete_author sch d test_id) ;;
       commit ;;
       print "✓ Test cleanup completed." ;;
       ret true
     else print "✗ Database test failed!" ;; ret false)
    (fun e =>
       match e with
       | IntegrityError msg => print ("Database test error: " +++ msg) ;; ret false
       | other => raise other
       end).

(** One pass through the body of [while True]: the value says whether the
    loop goes on ([False] after [break]). *)
Definition menu_choice (choice : string) : M bool :=
  let go_on (f : M bool) : M bool := f ;; ret true in
  let show (f : M unit) : M bool := f ;; ret true in
  if (choice =? "1")%string then show view_all_books
  else if (choice =? "2")%string then go_on (add_book sch today)
  else if (choice =? "3")%string then go_on update_book_title
  else if (choice =? "4")%string then go_on (delete_book sch)
  else if (choice =? "5")%string then show view_authors
  else if (choice =? "6")%string then go_on (add_author today)
  else if (choice =? "7")%string then go_on (update_author today)
  else if (choice =? "8")%string then go_on (delete_author sch)
  else if (choice =? "9")%string then go_on (borrow_book sch today)
  else if (choice =? "10")%string then go_on (return_book today)
  else if (choice =? "11")%string then show (view_borrowed_books true)
  else if (choice =? "12")%string then show (view_borrowed_books false)
  else if (choice =? "13")%string then go_on test_database_connection
  else if (choice =? "14")%string then
    print "Thank you for using the Library System. Goodbye!" ;; ret false
  else
    print "Invalid choice. Please enter a number between 1 and 14." ;; ret true.

Definition menu_pass : M bool :=
  print_each menu_lines ;;
  choice <- input "Enter your choice (1-14): " ;;
  let choice := Py.strip choice in
  try_except (menu_choice choice)
    (fun e =>
       print ("An unexpected error occurred: " +++ exn_text e) ;;
       print "Please try again." ;;
       ret true).

(** [while True: ...], unrolled at most [fuel] times: [Some tt] when the
    loop was left through [break], [None] when the fuel ran out. *)
Fixpoint menu_loop (fuel : nat) : M (option unit) :=
  match fuel with
  | O => ret None
  | S n =>
      go_on <- menu_pass ;;
      if go_on then menu_loop n else ret (Some tt)
  end.

(** Each pass reads a line, so one more pass than there are lines is
    enough (see [menu_loop_fuel]). *)
Definition main_menu (m : Machine) : M (option unit) :=
  print "=== Library Management System ===" ;;
  print "Connecting to existing database..." ;;
  conn <- create_connection m ;;
  if negb conn then
    print "Failed to connect to database. Exiting..." ;; ret (Some tt)
  else
    verified <- verify_database_structure m ;;
    if negb verified then
      print "Database structure verification failed. Please check your database." ;;
      ret (Some tt)
    else
      tested <- test_database_connection ;;
      if negb tested then
        print "Database functionality test failed. There may be issues with database permissions." ;;
        ret (Some tt)
      else
        left <- (fun w => menu_loop (S (List.length (stdin w))) w) ;;
        print "Database connection closed." ;;
        ret left.

End Session.

(* ===================================================================== *)
(** ** Statements a function may run, and what they keep *)
(* ===================================================================== *)

(** One statement of the script on the tables, with what the script has
    checked before running it. *)
Inductive stmt_step (sch : Schema) (today : date) (d : DB) : DB -> Prop :=
| st_insert_author name birth_year :
    stmt_step sch today d (fst (sql_insert_author d name birth_year))
| st_insert_book title pub_year author_id d' k :
    sql_insert_book sch d title pub_year author_id = inr (d', k) ->
    stmt_step sch today d d'
| st_update_book_title new_title k :
    stmt_step sch today d (sql_update_book_title d new_title k)
| st_delete_book k d' :
    sql_delete_book sch d k = inr d' -> stmt_step sch today d d'
| st_update_author new_name new_birth_year k :
    stmt_step sch today d (sql_update_author d new_name new_birth_year k)
| st_delete_author k d' :
    sql_delete_author sch d k = inr d' -> stmt_step sch today d d'
| st_insert_borrow book_id name d' k :
    has_book d book_id = true ->
    select_open_borrows d book_id = [] ->
    sql_insert_borrow sch d book_id name (isoformat today) = inr (d', k) ->
    stmt_step sch today d d'
| st_return k :
    select_outstanding_borrow d k <> [] ->
    stmt_step sch today d (sql_update_return d (isoformat today) k).

Inductive stmt_steps (sch : Schema) (today : date) (d : DB) : DB -> Prop :=
| steps_done : stmt_steps sch today d d
| steps_more d' d'' :
    stmt_steps sch today d d' -> stmt_step sch today d' d'' ->
    stmt_steps sch today d d''.

(** Primary keys of the three tables. *)
Definition keys_unique (d : DB) : Prop :=
  NoDup (map AuthorID (Authors d)) /\ NoDup (map BookID (Books d))
  /\ NoDup (map BorrowID (Borrows d)).

(** Every Borrows.BookID that is not NULL is the id of a Books row, every
    Books.AuthorID that is not NULL the id of an Authors row. *)
Definition references_ok (d : DB) : Prop :=
  (forall r k, In r (Borrows d) -> Borrow_BookID r = Some k -> has_book d k = true)
  /\
  (forall b k, In b (Books d) -> Book_AuthorID b = Some k -> has_author d k = true).

(** A function ends with a value or at the end of the input, with no more
    lines than it was given. *)
Definition well_behaved {A} (m : M A) : Prop :=
  forall w,
    (List.length (stdin (snd (m w))) <= List.length (stdin w))%nat /\
    ((exists a, fst (m w) = Return a) \/
     (fst (m w) = Raised EOFError /\ stdin (snd (m w)) = [])).

(** Every number on the pending input lines, as [int] reads it from the
    line or from the stripped line, is [int64]. *)
Definition numbers_fit (lines : list string) : bool :=
  let fits := fun o : option Z =>
    match o with Some k => int64 k | None => true end in
  forallb (fun s => fits (Py.int s) && fits (Py.int (Py.strip s))) lines.

(** The choices the menu knows. *)
Definition menu_choices : list string :=
  ["1"; "2"; "3"; "4"; "5"; "6"; "7"; "8"; "9"; "10"; "11"; "12"; "13"; "14"].

(** *** A small catalogue for the examples *)

Definition demo_today : date := mkDate 2024 3 9.

(** One author, two books; book 1 is out with Alice, book 2 came back. *)
Definition demo_db : DB :=
  mkDB [mkAuthor 1 "Frank Herbert" (Some 1920)]
       [mkBook 1 "Dune" (Some 1965) (Some 1); mkBook 2 "Emma" None None]
       [mkBorrow 1 (Some 1) "Alice" "2024-03-01" None;
        mkBorrow 2 (Some 2) "Carol" "2024-02-01" (Some "2024-02-20")].

Definition alice_row : Borrow := mkBorrow 1 (Some 1) "Alice" "2024-03-01" None.
Definition carol_row : Borrow :=
  mkBorrow 2 (Some 2) "Carol" "2024-02-01" (Some "2024-02-20").

Definition demo_machine : Machine :=
  mkMachine true "/home/reader" ["library_cli.py"; "libraryDB.sqlite"]
            ["Authors"; "Books"; "Borrows"].

(** Books.AuthorID ... ON DELETE SET NULL, Borrows.BookID ... ON DELETE CASCADE *)
Definition cascading : Schema := mkSchema SetNull Cascade.

(** Books.AuthorID REFERENCES Authors with no ON DELETE clause (NO ACTION),
    Borrows.BookID ... ON DELETE CASCADE *)
Definition plain_author_key : Schema := mkSchema Restrict Cascade.

(** Borrows.BookID not declared as a foreign key *)
Definition no_borrow_key : Schema := mkSchema Restrict NoFK.

(* ===================================================================== *)
(** ** Examples *)
(* ===================================================================== *)

Example strip_ex : Py.strip "  Yes " = "Yes". Proof. reflexivity. Qed.
Example lower_ex : Py.lower " YeS" = " yes". Proof. reflexivity. Qed.
Example int_ex1 : Py.int " 1_000 " = Some 1000. Proof. reflexivity. Qed.
Example int_ex2 : Py.int "-7" = Some (-7). Proof. reflexivity. Qed.
Example int_ex3 : Py.int "1__0" = None. Proof. reflexivity. Qed.
Example int_ex4 : Py.int "" = None. Proof. reflexivity. Qed.
Example int_ex5 : Py.int "12a" = None. Proof. reflexivity. Qed.
Example str_ex : Py.str 1970 = "1970" /\ Py.str 0 = "0" /\ Py.str (-3) = "-3".
Proof. repeat split; reflexivity. Qed.
Example iso_ex : isoformat (mkDate 2024 3 9) = "2024-03-09".
Proof. reflexivity. Qed.

(** The scenario of a first session on an empty catalogue: add "Dune"
    without an author, lend it to Alice, refuse it to Bob, take it back,
    lend it to Bob. *)
Example dune_session :
  let w := run_all cascading demo_today
             [AddBook; BorrowBook; BorrowBook; ReturnBook; BorrowBook]
             (mkWorld (mkDB [] [] [])
                      ["Dune"; "1965"; "3"; "1"; "Alice"; "1"; "Bob"; "1";
                       "1"; "Bob"] []) in
  db w = mkDB [] [mkBook 1 "Dune" (Some 1965) None]
              [mkBorrow 1 (Some 1) "Alice" "2024-03-09" (Some "2024-03-09");
               mkBorrow 2 (Some 1) "Bob" "2024-03-09" None]
  /\ In "Sorry, this book is currently borrowed by Alice." (stdout w).
Proof. vm_compute. split; [reflexivity | tauto]. Qed.

Example int_is_checked :
  fst (return_book demo_today (mkWorld demo_db ["one"] [])) = Return false
  /\ last (stdout (snd (return_book demo_today (mkWorld demo_db ["one"] [])))) ""
     = "Invalid ID. Please enter a number.".
Proof. vm_compute. split; reflexivity. Qed.

Example input_exhausted :
  fst (borrow_book cascading demo_today (mkWorld demo_db ["1"] []))
  = Raised EOFError.
Proof. reflexivity. Qed.

(* ===================================================================== *)
(** ** Running the monad *)
(* ===================================================================== *)

Ltac mstep :=
  cbv beta iota zeta delta
    [bind ret print print_each query input try_except execute_insert execute
     commit int_ raise handlers];
  cbn [db stdin stdout fst snd].

(** Case analysis on the innermost scrutinee of the goal. *)
Ltac split_innermost :=
  match goal with
  | |- context [match ?x with _ => _ end] =>
      lazymatch x with
      | context [match _ with _ => _ end] => fail
      | _ => destruct x eqn:?; mstep
      end
  end.

Lemma view_authors_run w :
  view_authors w
  = (Return tt, mkWorld (db w) (stdin w) (stdout w ++ printed view_authors (db w))).
Proof.
  unfold printed, view_authors. mstep.
  destruct (select_authors_ordered (db w)); mstep;
    rewrite <- !app_assoc; reflexivity.
Qed.

Lemma view_all_books_run w :
  view_all_books w
  = (Return tt, mkWorld (db w) (stdin w) (stdout w ++ printed view_all_books (db w))).
Proof.
  unfold printed, view_all_books. mstep.
  destruct (select_books_ordered (db w)); mstep;
    rewrite <- !app_assoc; reflexivity.
Qed.

Lemma view_borrowed_books_run o w :
  view_borrowed_books o w
  = (Return tt,
     mkWorld (db w) (stdin w) (stdout w ++ printed (view_borrowed_books o) (db w))).
Proof.
  unfold printed, view_borrowed_books. destruct o; mstep.
  all: match goal with
       | |- context [select_borrows_ordered ?d ?b] =>
           destruct (select_borrows_ordered d b)
       end; mstep; rewrite <- !app_assoc; reflexivity.
Qed.

Ltac views :=
  rewrite ?view_authors_run, ?view_all_books_run, ?view_borrowed_books_run;
  cbn [db stdin stdout fst snd].

(** Every path of a function, one goal per path. *)
Ltac paths := mstep; repeat first [progress views; mstep | split_innermost].

Lemma fetchone_None {A} (l : list A) : fetchone l = None -> l = [].
Proof. destruct l; [reflexivity | discriminate]. Qed.

Lemma fetchone_Some_in {A} (l : list A) x : fetchone l = Some x -> In x l.
Proof. destruct l; simpl; intro H; [discriminate | left; congruence]. Qed.

(** [add_author] writes to Authors only. *)
Lemma add_author_frame today w :
  Books (db (snd (add_author today w))) = Books (db w) /\
  Borrows (db (snd (add_author today w))) = Borrows (db w).
Proof.
  unfold add_author. mstep. repeat split_innermost.
  all: try (split; reflexivity).
  all: match goal with
       | H : sql_insert_author _ _ _ = _ |- _ =>
           unfold sql_insert_author in H; inversion H; subst; split; reflexivity
       end.
Qed.

Section Effects.

Variable sch : Schema.
Variable today : date.

Lemma insert_book_borrows d t p a d' k :
  sql_insert_book sch d t p a = inr (d', k) -> Borrows d' = Borrows d.
Proof.
  unfold sql_insert_book. intro H.
  destruct a; [destruct (_ && _) |]; inversion H; reflexivity.
Qed.

Lemma insert_borrow_step d b n d' k :
  fetchone (select_open_borrows d b) = None ->
  sql_insert_borrow sch d b n (isoformat today) = inr (d', k) ->
  borrows_step today (Borrows d) (Borrows d').
Proof.
  unfold sql_insert_borrow. intros Hopen H.
  destruct (_ && _); inversion H; subst; cbn [Borrows].
  apply bs_insert. apply fetchone_None in Hopen. exact Hopen.
Qed.

Lemma delete_books_where_step doomed books rows books' rows' :
  delete_books_where sch doomed books rows = Some (books', rows') ->
  borrows_step today rows rows'.
Proof.
  unfold delete_books_where. intro H.
  destruct (borrows_after_delete _ _ _) eqn:E; inversion H; subst.
  eapply bs_delete; exact E.
Qed.

Lemma delete_book_step d k d' :
  sql_delete_book sch d k = inr d' ->
  borrows_step today (Borrows d) (Borrows d').
Proof.
  unfold sql_delete_book. intro H.
  destruct (delete_books_where _ _ _ _) as [[bk br]|] eqn:E; inversion H; subst.
  cbn [Borrows]. eapply delete_books_where_step; exact E.
Qed.

Lemma delete_author_step d k d' :
  sql_delete_author sch d k = inr d' ->
  borrows_step today (Borrows d) (Borrows d').
Proof.
  unfold sql_delete_author. intro H.
  destruct (books_author_fk sch).
  - inversion H; apply bs_same.
  - destruct (existsb _ _); inversion H; apply bs_same.
  - inversion H; apply bs_same.
  - destruct (delete_books_where _ _ _ _) as [[bk br]|] eqn:E; inversion H; subst.
    cbn [Borrows]. eapply delete_books_where_step; exact E.
Qed.

Lemma return_step d k x :
  fetchone (select_outstanding_borrow d k) = Some x ->
  borrows_step today (Borrows d)
    (Borrows (sql_update_return d (isoformat today) k)).
Proof.
  intro H. cbn [sql_update_return Borrows]. apply bs_return.
  apply fetchone_Some_in in H.
  unfold select_outstanding_borrow, join_borrows_books in H.
  apply in_flat_map in H. destruct H as [br [Hbr _]].
  apply filter_In in Hbr. apply existsb_exists. exists br. exact Hbr.
Qed.

Ltac leaf :=
  first
    [ apply bs_same
    | match goal with
      | H : sql_insert_author _ _ _ = _ |- _ =>
          unfold sql_insert_author in H; inversion H; subst; apply bs_same
      | H : sql_insert_book _ _ _ _ _ = inr _ |- _ =>
          rewrite (insert_book_borrows _ _ _ _ _ _ H); apply bs_same
      | H : sql_delete_book _ _ _ = inr _ |- _ =>
          exact (delete_book_step _ _ _ H)
      | H : sql_delete_author _ _ _ = inr _ |- _ =>
          exact (delete_author_step _ _ _ H)
      | Ho : fetchone (select_open_borrows _ _) = None,
        H : sql_insert_borrow _ _ _ _ _ = inr _ |- _ =>
          exact (insert_borrow_step _ _ _ _ _ Ho H)
      | H : fetchone (select_outstanding_borrow _ _) = Some _ |- _ =>
          exact (return_step _ _ _ H)
      end ].

Lemma add_author_step w :
  borrows_step today (Borrows (db w)) (Borrows (db (snd (add_author today w)))).
Proof.
  rewrite (proj2 (add_author_frame today w)). apply bs_same.
Qed.

Lemma update_book_title_step w :
  borrows_step today (Borrows (db w))
    (Borrows (db (snd (update_book_title w)))).
Proof.
  unfold update_book_title. paths. all: leaf.
Qed.

Lemma delete_book_op_step w :
  borrows_step today (Borrows (db w))
    (Borrows (db (snd (delete_book sch w)))).
Proof.
  unfold delete_book. paths. all: leaf.
Qed.

Lemma update_author_step w :
  borrows_step today (Borrows (db w))
    (Borrows (db (snd (update_author today w)))).
Proof.
  unfold update_author. paths. all: leaf.
Qed.

Lemma delete_author_op_step w :
  borrows_step today (Borrows (db w))
    (Borrows (db (snd (delete_author sch w)))).
Proof.
  unfold delete_author. paths. all: leaf.
Qed.

Lemma borrow_book_step w :
  borrows_step today (Borrows (db w))
    (Borrows (db (snd (borrow_book sch today w)))).
Proof.
  unfold borrow_book. paths. all: leaf.
Qed.

Lemma return_book_step w :
  borrows_step today (Borrows (db w))
    (Borrows (db (snd (return_book today w)))).
Proof.
  unfold return_book. paths. all: leaf.
Qed.

End Effects.

(** *** List facts used below *)

Lemma fold_max_ge (i : Z) (r : list Z) x :
  In x (i :: r) -> x <= fold_right Z.max i r.
Proof.
  induction r as [|j r IH]; cbn [fold_right]; intro Hin.
  - destruct Hin as [-> | []]. lia.
  - destruct Hin as [-> | [-> | Hin]].
    + specialize (IH (or_introl eq_refl)). lia.
    + lia.
    + specialize (IH (or_intror Hin)). lia.
Qed.

Lemma next_rowid_gt (ids : list Z) x : In x ids -> x < next_rowid ids.
Proof.
  destruct ids as [|i r]; [contradiction |]. cbn [next_rowid].
  intro Hin. apply fold_max_ge in Hin. lia.
Qed.

Lemma NoDup_snoc {A} (l : list A) x : NoDup l -> ~ In x l -> NoDup (l ++ [x]).
Proof.
  induction l as [|a l IH]; cbn [app]; intros Hnd Hx.
  - constructor; [intros [] | constructor].
  - inversion Hnd as [|? ? Ha Hnd']; subst. constructor.
    + intro Hin. apply in_app_or in Hin. destruct Hin as [Hin | [-> | []]].
      * exact (Ha Hin).
      * apply Hx. left. reflexivity.
    + apply IH; [exact Hnd' |]. intro Hin. apply Hx. right. exact Hin.
Qed.

Lemma filter_map_le {A} (P : A -> bool) (f : A -> A) (l : list A) :
  (forall r, P (f r) = true -> P r = true) ->
  (List.length (filter P (map f l)) <= List.length (filter P l))%nat.
Proof.
  intro H. induction l as [|a l IH]; cbn [map filter]; [lia |].
  destruct (P (f a)) eqn:E.
  - rewrite (H _ E). cbn [List.length]. lia.
  - destruct (P a); cbn [List.length]; lia.
Qed.

Lemma filter_filter_le {A} (P Q : A -> bool) (l : list A) :
  (List.length (filter P (filter Q l)) <= List.length (filter P l))%nat.
Proof.
  induction l as [|a l IH]; cbn [filter]; [lia |].
  destruct (Q a); cbn [filter]; destruct (P a); cbn [List.length]; lia.
Qed.

Lemma NoDup_map_inj {A} (f : A -> Z) (l : list A) a b :
  NoDup (map f l) -> In a l -> In b l -> f a = f b -> a = b.
Proof.
  induction l as [|x l IH]; cbn [map]; intros Hnd Ha Hb Hf; [contradiction |].
  inversion Hnd as [|? ? Hnotin Hnd']; subst.
  destruct Ha as [-> | Ha], Hb as [-> | Hb].
  - reflexivity.
  - exfalso. apply Hnotin. rewrite Hf. apply in_map. exact Hb.
  - exfalso. apply Hnotin. rewrite <- Hf. apply in_map. exact Ha.
  - apply IH; assumption.
Qed.

Lemma NoDup_map_filter {A} (f : A -> Z) (Q : A -> bool) (l : list A) :
  NoDup (map f l) -> NoDup (map f (filter Q l)).
Proof.
  induction l as [|x l IH]; cbn [map filter]; intro Hnd; [constructor |].
  inversion Hnd as [|? ? Hnotin Hnd']; subst.
  destruct (Q x); cbn [map]; [constructor |]; auto.
  intro Hin. apply Hnotin. apply in_map_iff in Hin.
  destruct Hin as [y [Hy Hin]]. apply filter_In in Hin.
  rewrite <- Hy. apply in_map. tauto.
Qed.

(** *** What a step on Borrows preserves *)

Lemma borrows_step_single_open today rows rows' :
  borrows_step today rows rows' ->
  (forall b, (List.length (filter (open_for b) rows) <= 1)%nat) ->
  forall b, (List.length (filter (open_for b) rows') <= 1)%nat.
Proof.
  intros Hstep Hinv b. destruct Hstep as [| book_id name Hnone | k Hex | act gone rows' Hdel].
  - apply Hinv.
  - rewrite filter_app, length_app. cbn [filter].
    unfold open_for at 2. cbn [Borrow_BookID opt_eqb is_open ReturnDate].
    destruct (book_id =? b) eqn:E; cbn [andb List.length].
    + apply Z.eqb_eq in E. subst b.
      rewrite Hnone. cbn [List.length]. lia.
    + specialize (Hinv b). lia.
  - etransitivity; [| apply (Hinv b)].
    apply filter_map_le. intros r. unfold open_for.
    destruct (BorrowID r =? k); cbn [Borrow_BookID is_open ReturnDate];
      [rewrite andb_false_r; discriminate | auto].
  - destruct act; cbn [borrows_after_delete] in Hdel.
    + inversion Hdel; subst. apply Hinv.
    + destruct (existsb _ _); inversion Hdel; subst. apply Hinv.
    + inversion Hdel; subst. etransitivity; [| apply (Hinv b)].
      apply filter_map_le. intros r. unfold open_for.
      destruct (refers_to gone (Borrow_BookID r));
        cbn [Borrow_BookID opt_eqb andb]; [discriminate | auto].
    + inversion Hdel; subst. etransitivity; [| apply (Hinv b)].
      apply filter_filter_le.
Qed.

Lemma borrows_step_unique today rows rows' :
  borrows_step today rows rows' ->
  NoDup (map BorrowID rows) -> NoDup (map BorrowID rows').
Proof.
  intros Hstep Hnd. destruct Hstep as [| book_id name Hnone | k Hex | act gone rows' Hdel].
  - exact Hnd.
  - rewrite map_app. cbn [map BorrowID].
    apply NoDup_snoc; [exact Hnd |].
    intro Hin. apply next_rowid_gt in Hin. lia.
  - rewrite map_map.
    erewrite map_ext; [exact Hnd |]. intro r. cbn beta.
    destruct (BorrowID r =? k); reflexivity.
  - destruct act; cbn [borrows_after_delete] in Hdel.
    + inversion Hdel; subst; exact Hnd.
    + destruct (existsb _ _); inversion Hdel; subst; exact Hnd.
    + inversion Hdel; subst. rewrite map_map.
      erewrite map_ext; [exact Hnd |]. intro r. cbn beta.
      destruct (refers_to gone (Borrow_BookID r)); reflexivity.
    + inversion Hdel; subst. apply NoDup_map_filter. exact Hnd.
Qed.

Lemma borrows_step_returned today rows rows' r dt r' :
  borrows_step today rows rows' ->
  NoDup (map BorrowID rows) ->
  In r rows -> ReturnDate r = Some dt ->
  In r' rows' -> BorrowID r' = BorrowID r ->
  ReturnDate r' = Some dt.
Proof.
  intros Hstep Hnd Hr Hdt Hr' Hid.
  destruct Hstep as [| book_id name Hnone | k Hex | act gone rows' Hdel].
  - rewrite (NoDup_map_inj BorrowID rows r' r Hnd Hr' Hr Hid). exact Hdt.
  - apply in_app_or in Hr'. destruct Hr' as [Hr' | [<- | []]].
    + rewrite (NoDup_map_inj BorrowID rows r' r Hnd Hr' Hr Hid). exact Hdt.
    + cbn [BorrowID] in Hid.
      assert (BorrowID r < next_rowid (map BorrowID rows))
        by (apply next_rowid_gt, in_map, Hr).
      lia.
  - apply in_map_iff in Hr'. destruct Hr' as [x [Hx Hin]].
    assert (Hxid : BorrowID x = BorrowID r).
    { rewrite <- Hid, <- Hx. destruct (BorrowID x =? k); reflexivity. }
    pose proof (NoDup_map_inj BorrowID rows x r Hnd Hin Hr Hxid) as ->.
    destruct (BorrowID r =? k) eqn:E; [| subst r'; exact Hdt].
    exfalso. apply existsb_exists in Hex. destruct Hex as [y [Hy Hopen]].
    apply andb_prop in Hopen. destruct Hopen as [Hyk Hyopen].
    apply Z.eqb_eq in E, Hyk.
    assert (y = r) by (apply (NoDup_map_inj BorrowID rows); auto; congruence).
    subst y. unfold is_open in Hyopen. rewrite Hdt in Hyopen. discriminate.
  - destruct act; cbn [borrows_after_delete] in Hdel.
    + inversion Hdel; subst.
      rewrite (NoDup_map_inj BorrowID _ r' r Hnd Hr' Hr Hid). exact Hdt.
    + destruct (existsb _ _); inversion Hdel; subst.
      rewrite (NoDup_map_inj BorrowID _ r' r Hnd Hr' Hr Hid). exact Hdt.
    + inversion Hdel; subst. apply in_map_iff in Hr'. destruct Hr' as [x [Hx Hin]].
      assert (Hxid : BorrowID x = BorrowID r).
      { rewrite <- Hid, <- Hx.
        destruct (refers_to gone (Borrow_BookID x)); reflexivity. }
      pose proof (NoDup_map_inj BorrowID _ x r Hnd Hin Hr Hxid) as ->.
      rewrite <- Hx. destruct (refers_to gone (Borrow_BookID r)); exact Hdt.
    + inversion Hdel; subst. apply filter_In in Hr'. destruct Hr' as [Hr' _].
      rewrite (NoDup_map_inj BorrowID _ r' r Hnd Hr' Hr Hid). exact Hdt.
Qed.

Section Invariants.

Variable sch : Schema.
Variable today : date.

Lemma add_book_step w :
  borrows_step today (Borrows (db w))
    (Borrows (db (snd (add_book sch today w)))).
Proof.
  unfold add_book. mstep.
  repeat first
    [ progress views; mstep
    | match goal with
      | |- context [add_author today ?w0] =>
          let F := fresh "F" in
          destruct (add_author_frame today w0) as [_ F];
          destruct (add_author today w0) as [[[|]|] ?];
          cbn [db stdin stdout fst snd] in F; mstep
      end
    | split_innermost ].
  all: repeat match goal with
       | F : Borrows (db _) = Borrows (db _) |- _ => rewrite <- F; clear F
       end.
  all: try apply bs_same.
  all: match goal with
       | H : sql_insert_book _ _ _ _ _ = inr _ |- _ =>
           rewrite (insert_book_borrows _ _ _ _ _ _ _ H); apply bs_same
       end.
Qed.

Lemma run_step op w :
  borrows_step today (Borrows (db w)) (Borrows (db (snd (run sch today op w)))).
Proof.
  destruct op; cbn [run].
  - apply add_book_step.
  - apply update_book_title_step.
  - apply delete_book_op_step.
  - apply add_author_step.
  - apply update_author_step.
  - apply delete_author_op_step.
  - apply borrow_book_step.
  - apply return_book_step.
Qed.

End Invariants.


(* ===================================================================== *)
(** ** Facts about the queries and the statements *)
(* ===================================================================== *)

Lemma filter_nil {A} (P : A -> bool) (l : list A) :
  (forall x, In x l -> P x = false) -> filter P l = [].
Proof.
  induction l as [|a l IH]; cbn [filter]; intro H; [reflexivity |].
  rewrite (H a (or_introl eq_refl)). apply IH. intros x Hx. apply H. right. exact Hx.
Qed.

Lemma filter_all {A} (P : A -> bool) (l : list A) :
  (forall x, In x l -> P x = true) -> filter P l = l.
Proof.
  induction l as [|a l IH]; cbn [filter]; intro H; [reflexivity |].
  rewrite (H a (or_introl eq_refl)). f_equal. apply IH.
  intros x Hx. apply H. right. exact Hx.
Qed.

Lemma existsb_none {A} (P : A -> bool) (l : list A) :
  (forall x, In x l -> P x = false) -> existsb P l = false.
Proof.
  induction l as [|a l IH]; cbn [existsb]; intro H; [reflexivity |].
  rewrite (H a (or_introl eq_refl)). apply IH.
  intros x Hx. apply H. right. exact Hx.
Qed.




Lemma insert_sorted_perm {A} (le : A -> A -> bool) x (l : list A) :
  Permutation (insert_sorted le x l) (x :: l).
Proof.
  induction l as [|y l IH]; cbn [insert_sorted]; [reflexivity |].
  destruct (le x y); [reflexivity |].
  rewrite IH. apply perm_swap.
Qed.

(** ORDER BY returns the scanned rows, each once. *)
Lemma order_by_perm {A} (le : A -> A -> bool) (l : list A) :
  Permutation (order_by le l) l.
Proof.
  induction l as [|x l IH]; cbn [order_by]; [reflexivity |].
  rewrite insert_sorted_perm. constructor. exact IH.
Qed.

Lemma order_by_In {A} (le : A -> A -> bool) (l : list A) x :
  In x (order_by le l) <-> In x l.
Proof.
  split; apply Permutation_in; [| symmetry]; apply order_by_perm.
Qed.










(** After [DELETE FROM Books WHERE BookID = k], no Books row has id [k]. *)
Lemma delete_book_gone sch d k d' :
  sql_delete_book sch d k = inr d' ->
  Authors d' = Authors d /\ select_book d' k = [] /\ has_book d' k = false.
Proof.
  unfold sql_delete_book, delete_books_where. intro H.
  destruct (borrows_after_delete _ _ _) as [rows|]; inversion H; subst.
  cbn [Authors]. split; [reflexivity |].
  assert (Hsel : select_book (mkDB (Authors d)
                   (filter (fun b => negb (BookID b =? k)) (Books d)) rows) k = []).
  { unfold select_book. cbn [Books]. apply filter_nil. intros x Hx.
    apply filter_In in Hx. destruct Hx as [_ Hx].
    destruct (BookID x =? k); [discriminate | reflexivity]. }
  split; [exact Hsel |].
  unfold has_book. cbn [Books].
  destruct (existsb _ _) eqn:E; [| reflexivity].
  apply existsb_exists in E. destruct E as [x [Hx Hk]].
  apply filter_In in Hx. destruct Hx as [_ Hx]. rewrite Hk in Hx. discriminate.
Qed.



(** After [DELETE FROM Authors WHERE AuthorID = k], no Authors row has
    id [k]. *)
Lemma delete_author_gone sch d k d' :
  sql_delete_author sch d k = inr d' ->
  Authors d' = filter (fun a => negb (AuthorID a =? k)) (Authors d) /\
  select_author d' k = [] /\ has_author d' k = false.
Proof.
  intro H.
  assert (HA : Authors d' = filter (fun a => negb (AuthorID a =? k)) (Authors d)).
  { unfold sql_delete_author in H. destruct (books_author_fk sch).
    - inversion H; reflexivity.
    - destruct (existsb _ _); inversion H; reflexivity.
    - inversion H; reflexivity.
    - destruct (delete_books_where _ _ _ _) as [[bk br]|]; inversion H; reflexivity. }
  split; [exact HA |].
  assert (Hsel : select_author d' k = []).
  { unfold select_author. rewrite HA. apply filter_nil. intros x Hx.
    apply filter_In in Hx. destruct Hx as [_ Hx].
    destruct (AuthorID x =? k); [discriminate | reflexivity]. }
  split; [exact Hsel |].
  unfold has_author. destruct (existsb _ _) eqn:E; [| reflexivity].
  apply existsb_exists in E. destruct E as [x [Hx Hk]].
  assert (Hin : In x (select_author d' k)) by (apply filter_In; auto).
  rewrite Hsel in Hin. contradiction.
Qed.

(** The store accepts the DELETE on Authors unless a foreign key says
    NO ACTION / RESTRICT. *)
Lemma delete_author_accepted sch d k :
  books_author_fk sch <> Restrict ->
  (books_author_fk sch = Cascade -> borrows_book_fk sch <> Restrict) ->
  exists d', sql_delete_author sch d k = inr d'.
Proof.
  intros H1 H2. unfold sql_delete_author.
  destruct (books_author_fk sch) eqn:E; try (eexists; reflexivity).
  - contradiction.
  - specialize (H2 eq_refl). unfold delete_books_where.
    destruct (borrows_book_fk sch); try contradiction;
      cbn [borrows_after_delete]; eexists; reflexivity.
Qed.





Lemma inserted_once d name b :
  let k := next_rowid (map AuthorID (Authors d)) in
  filter (fun x => AuthorID x =? k) (Authors (fst (sql_insert_author d name b)))
  = [mkAuthor k name b].
Proof.
  cbn zeta. unfold sql_insert_author. cbn [fst Authors].
  rewrite filter_app. cbn [filter AuthorID]. rewrite Z.eqb_refl.
  rewrite filter_nil; [reflexivity |]. intros x Hx.
  apply Z.eqb_neq. intro E.
  assert (AuthorID x < next_rowid (map AuthorID (Authors d)))
    by (apply next_rowid_gt, in_map, Hx).
  lia.
Qed.



(* ===================================================================== *)
(** ** The borrow invariant and the immutability of ReturnDate *)
(* ===================================================================== *)

Lemma demo_single_open : single_open demo_db.
Proof.
  intro b. unfold select_open_borrows, demo_db. cbn [Borrows filter].
  unfold open_for, opt_eqb, is_open. cbn [Borrow_BookID ReturnDate].
  destruct (1 =? b), (2 =? b); cbn [andb List.length]; lia.
Qed.

(** C1. Starting from a state in which every BookID has at most one
    Borrows row with ReturnDate NULL, every mutating operation of the menu
    (add, update and delete of books and authors, borrow, return), run on
    any input, ends in such a state; and so does any sequence of them. *)
Theorem single_open_preserved sch today (w : World) :
  single_open (db w) ->
  (forall op, single_open (db (snd (run sch today op w)))) /\
  (forall ops, single_open (db (run_all sch today ops w))).
Proof.
  assert (Hone : forall w0 op, single_open (db w0) ->
                               single_open (db (snd (run sch today op w0)))).
  { intros w0 op H b.
    exact (borrows_step_single_open today _ _ (run_step sch today op w0) H b). }
  intro H. split; [intro op; apply Hone; exact H |].
  intro ops. revert w H. induction ops as [|op ops IH]; intros w H; cbn [run_all].
  - exact H.
  - apply IH. apply Hone. exact H.
Qed.

Lemma single_open_preserved_witness :
  single_open demo_db /\
  single_open
    (db (run_all cascading demo_today [BorrowBook; ReturnBook; DeleteBook]
           (mkWorld demo_db ["2"; "Bob"; "1"; "1"; "yes"] []))).
Proof.
  split; [exact demo_single_open |].
  apply (single_open_preserved cascading demo_today
           (mkWorld demo_db ["2"; "Bob"; "1"; "1"; "yes"] [])).
  exact demo_single_open.
Defined.

(** C4. A Borrows row whose ReturnDate is set keeps that ReturnDate
    through every operation, [return_book] on its own id or on another
    one included: as long as the row is in the table (it has not been
    deleted together with its book), its ReturnDate is the one it had.
    BorrowID is the primary key of the table. *)
Theorem return_date_immutable sch today (w : World) (r : Borrow) (dt : string) :
  unique_borrow_ids (db w) ->
  In r (Borrows (db w)) ->
  ReturnDate r = Some dt ->
  (forall op r',
      In r' (Borrows (db (snd (run sch today op w)))) ->
      BorrowID r' = BorrowID r -> ReturnDate r' = Some dt) /\
  (forall ops r',
      kept sch today (BorrowID r) ops w ->
      In r' (Borrows (db (run_all sch today ops w))) ->
      BorrowID r' = BorrowID r -> ReturnDate r' = Some dt).
Proof.
  assert (Hone : forall w0 x op r',
             unique_borrow_ids (db w0) -> In x (Borrows (db w0)) ->
             ReturnDate x = Some dt ->
             In r' (Borrows (db (snd (run sch today op w0)))) ->
             BorrowID r' = BorrowID x -> ReturnDate r' = Some dt).
  { intros w0 x op r' Hnd Hx Hdt Hr' Hid.
    exact (borrows_step_returned today _ _ x dt r' (run_step sch today op w0)
             Hnd Hx Hdt Hr' Hid). }
  intros Hnd Hr Hdt. split; [intros op r'; apply Hone; assumption |].
  intros ops. revert w r Hnd Hr Hdt.
  induction ops as [|op ops IH]; intros w r Hnd Hr Hdt r' Hkept Hr' Hid;
    cbn [run_all kept] in *.
  - unfold unique_borrow_ids in Hnd.
    rewrite (NoDup_map_inj BorrowID _ r' r Hnd Hr' Hr Hid). exact Hdt.
  - destruct Hkept as [Hhas Hkept].
    unfold has_borrow in Hhas. apply existsb_exists in Hhas.
    destruct Hhas as [x [Hx Hxid]]. apply Z.eqb_eq in Hxid.
    assert (Hxdt : ReturnDate x = Some dt) by (eapply Hone; eauto).
    rewrite <- Hxid in Hkept, Hid.
    apply (IH (snd (run sch today op w)) x); try assumption.
    exact (borrows_step_unique today _ _ (run_step sch today op w) Hnd).
Qed.

Lemma return_date_immutable_witness :
  let w := mkWorld demo_db ["2"; "1"; "2"; "Dan"] [] in
  let ops := [ReturnBook; ReturnBook; BorrowBook] in
  unique_borrow_ids (db w) /\
  In carol_row (Borrows (db w)) /\
  kept cascading demo_today 2 ops w /\
  forall r',
    In r' (Borrows (db (run_all cascading demo_today ops w))) ->
    BorrowID r' = 2 -> ReturnDate r' = Some "2024-02-20".
Proof.
  cbn zeta.
  assert (Hu : unique_borrow_ids demo_db).
  { unfold unique_borrow_ids. cbn. constructor.
    - cbn. intros [H | []]. discriminate H.
    - constructor; [intros [] | constructor]. }
  assert (Hin : In carol_row (Borrows demo_db)) by (right; left; reflexivity).
  assert (Hkept : kept cascading demo_today 2 [ReturnBook; ReturnBook; BorrowBook]
                    (mkWorld demo_db ["2"; "1"; "2"; "Dan"] [])).
  { cbn [kept]. vm_compute. repeat split. }
  split; [exact Hu |]. split; [exact Hin |]. split; [exact Hkept |].
  intros r'.
  exact (proj2 (return_date_immutable cascading demo_today
                  (mkWorld demo_db ["2"; "1"; "2"; "Dan"] []) carol_row
                  "2024-02-20" Hu Hin eq_refl)
           [ReturnBook; ReturnBook; BorrowBook] r' Hkept).
Defined.

(* ===================================================================== *)
(** ** Borrowing and returning *)
(* ===================================================================== *)





(* ===================================================================== *)
(** ** Deleting books and authors *)
(* ===================================================================== *)






(** The read-back of [delete_book] does not look at Borrows.  On a store
    where Borrows.BookID is not declared as a foreign key, [delete_book]
    on book 1 of the catalogue, answered "yes", reports success (its
    read-back finds no Books row) while Alice's Borrows row for book 1 is
    still in the table. *)
Remark delete_book_reads_back_books_only :
  let w := mkWorld demo_db ["1"; "yes"] [] in
  let w' := snd (delete_book no_borrow_key w) in
  has_book (db w) 1 = true /\
  fst (delete_book no_borrow_key w) = Return true /\
  last (stdout w') "" = "✓ Changes have been saved to the database." /\
  has_book (db w') 1 = false /\
  In alice_row (Borrows (db w')) /\
  borrowed_ever (db w') 1 = true.
Proof.
  vm_compute. repeat split. left. reflexivity.
Qed.







(** C9. [delete_book] and [delete_author] write nothing unless the answer
    to the confirmation prompt, lower-cased and stripped, is "yes": on any
    other answer (the id line being no number, or a number the store can
    hold) both return False and leave the three tables as they were; and
    whenever either of them has changed a table, the second line it read
    was such a "yes". *)
Theorem delete_needs_yes sch (w : World) :
  (forall s ans rest,
      stdin w = s :: ans :: rest ->
      match Py.int s with Some k => int64 k | None => true end = true ->
      Py.strip (Py.lower ans) <> "yes" ->
      (fst (delete_book sch w) = Return false
       /\ db (snd (delete_book sch w)) = db w)
      /\
      (fst (delete_author sch w) = Return false
       /\ db (snd (delete_author sch w)) = db w))
  /\
  (db (snd (delete_book sch w)) <> db w
   \/ db (snd (delete_author sch w)) <> db w ->
   exists s ans rest,
     stdin w = s :: ans :: rest /\ Py.strip (Py.lower ans) = "yes").
Proof.
  split.
  - intros s ans rest Hin _ Hno.
    assert (Heq : (Py.strip (Py.lower ans) =? "yes")%string = false)
      by (apply String.eqb_neq; exact Hno).
    split.
    + unfold delete_book. mstep. views. rewrite Hin. mstep.
      destruct (Py.int s); mstep; [| auto].
      destruct (fetchone _); mstep; [| auto]. rewrite Heq. mstep. auto.
    + unfold delete_author. mstep. views. rewrite Hin. mstep.
      destruct (Py.int s); mstep; [| auto].
      destruct (fetchone _); mstep; [| auto]. rewrite Heq. mstep. auto.
  - intros [H | H]; revert H.
    + unfold delete_book. paths.
      all: try (intro H; exfalso; apply H; reflexivity).
      all: intros _; do 3 eexists;
        split; [reflexivity | apply String.eqb_eq; assumption].
    + unfold delete_author. paths.
      all: try (intro H; exfalso; apply H; reflexivity).
      all: intros _; do 3 eexists;
        split; [reflexivity | apply String.eqb_eq; assumption].
Qed.

Lemma delete_needs_yes_witness :
  let w := mkWorld demo_db ["1"; "y"] [] in
  (fst (delete_book cascading w) = Return false
   /\ db (snd (delete_book cascading w)) = demo_db)
  /\
  (fst (delete_author cascading w) = Return false
   /\ db (snd (delete_author cascading w)) = demo_db).
Proof.
  cbn zeta.
  apply (proj1 (delete_needs_yes cascading (mkWorld demo_db ["1"; "y"] []))
           "1" "y" [] eq_refl eq_refl).
  vm_compute. discriminate.
Defined.

(* ===================================================================== *)
(** ** Creating books and authors *)
(* ===================================================================== *)









(* ===================================================================== *)
(** ** Every function runs guarded statements *)
(* ===================================================================== *)

Lemma stmt_steps_trans sch today d1 d2 d3 :
  stmt_steps sch today d1 d2 -> stmt_steps sch today d2 d3 ->
  stmt_steps sch today d1 d3.
Proof.
  intros H12 H23. induction H23 as [| d' d'' _ IH Hstep]; [exact H12 |].
  eapply steps_more; [exact IH | exact Hstep].
Qed.

Lemma fetchone_Some_not_nil {A} (l : list A) x : fetchone l = Some x -> l <> [].
Proof. destruct l; [discriminate | discriminate]. Qed.

Lemma select_book_has d k b : fetchone (select_book d k) = Some b -> has_book d k = true.
Proof.
  intro H. apply fetchone_Some_in in H. unfold select_book in H.
  apply filter_In in H. unfold has_book. apply existsb_exists. exists b. exact H.
Qed.

Section Steps.

Variable sch : Schema.
Variable today : date.

Ltac one_step :=
  match goal with
  | H : sql_insert_author ?d ?n ?b = (?d', _) |- stmt_step _ _ ?d ?d' =>
      replace d' with (fst (sql_insert_author d n b)) by (rewrite H; reflexivity);
      apply st_insert_author
  | H : sql_insert_book _ ?d _ _ _ = inr (?d', _) |- stmt_step _ _ ?d ?d' =>
      eapply st_insert_book; exact H
  | |- stmt_step _ _ ?d (sql_update_book_title ?d _ _) =>
      apply st_update_book_title
  | H : sql_delete_book _ ?d _ = inr ?d' |- stmt_step _ _ ?d ?d' =>
      eapply st_delete_book; exact H
  | |- stmt_step _ _ ?d (sql_update_author ?d _ _ _) =>
      apply st_update_author
  | H : sql_delete_author _ ?d _ = inr ?d' |- stmt_step _ _ ?d ?d' =>
      eapply st_delete_author; exact H
  | Hb : fetchone (select_book ?d ?k) = Some _,
    Ho : fetchone (select_open_borrows ?d ?k) = None,
    H : sql_insert_borrow _ ?d ?k _ _ = inr (?d', _) |- stmt_step _ _ ?d ?d' =>
      eapply st_insert_borrow;
      [exact (select_book_has _ _ _ Hb) | exact (fetchone_None _ Ho) | exact H]
  | H : fetchone (select_outstanding_borrow ?d ?k) = Some _
    |- stmt_step _ _ ?d (sql_update_return ?d _ ?k) =>
      apply st_return; exact (fetchone_Some_not_nil _ _ H)
  end.

Ltac steps_leaf :=
  first [ apply steps_done
        | eapply steps_more; [apply steps_done | one_step]
        | eapply steps_more; [eassumption | one_step]
        | eassumption ].

Lemma add_author_steps w :
  stmt_steps sch today (db w) (db (snd (add_author today w))).
Proof. unfold add_author. paths. all: steps_leaf. Qed.

Lemma update_book_title_steps w :
  stmt_steps sch today (db w) (db (snd (update_book_title w))).
Proof. unfold update_book_title. paths. all: steps_leaf. Qed.

Lemma delete_book_steps w :
  stmt_steps sch today (db w) (db (snd (delete_book sch w))).
Proof. unfold delete_book. paths. all: steps_leaf. Qed.

Lemma update_author_steps w :
  stmt_steps sch today (db w) (db (snd (update_author today w))).
Proof. unfold update_author. paths. all: steps_leaf. Qed.

Lemma delete_author_steps w :
  stmt_steps sch today (db w) (db (snd (delete_author sch w))).
Proof. unfold delete_author. paths. all: steps_leaf. Qed.

Lemma borrow_book_steps w :
  stmt_steps sch today (db w) (db (snd (borrow_book sch today w))).
Proof. unfold borrow_book. paths. all: steps_leaf. Qed.

Lemma return_book_steps w :
  stmt_steps sch today (db w) (db (snd (return_book today w))).
Proof. unfold return_book. paths. all: steps_leaf. Qed.

Lemma add_book_steps w :
  stmt_steps sch today (db w) (db (snd (add_book sch today w))).
Proof.
  unfold add_book. mstep.
  repeat first
    [ progress views; mstep
    | match goal with
      | |- context [add_author today ?w0] =>
          let F := fresh "F" in
          pose proof (add_author_steps w0) as F;
          destruct (add_author today w0) as [[[|]|] ?];
          cbn [db stdin stdout fst snd] in F; mstep
      end
    | split_innermost ].
  all: steps_leaf.
Qed.

Lemma test_database_connection_steps w :
  stmt_steps sch today (db w) (db (snd (test_database_connection sch w))).
Proof.
  unfold test_database_connection. paths.
  all: try steps_leaf.
  all: match goal with
       | H : sql_insert_author _ _ _ = (?d, _) |- stmt_steps _ _ _ ?d0 =>
           apply (steps_more sch today _ d d0); [steps_leaf | one_step]
       end.
Qed.

Lemma run_steps op w :
  stmt_steps sch today (db w) (db (snd (run sch today op w))).
Proof.
  destruct op; cbn [run].
  - apply add_book_steps.
  - apply update_book_title_steps.
  - apply delete_book_steps.
  - apply add_author_steps.
  - apply update_author_steps.
  - apply delete_author_steps.
  - apply borrow_book_steps.
  - apply return_book_steps.
Qed.

End Steps.

(* ===================================================================== *)
(** ** What the statements keep *)
(* ===================================================================== *)

Lemma stmt_step_borrows sch today d d' :
  stmt_step sch today d d' -> borrows_step today (Borrows d) (Borrows d').
Proof.
  intro H. destruct H as [n b | t p a d' k H | t k | k d' H | n b k | k d' H
                            | bk n d' k Hb Ho H | k Hne].
  - apply bs_same.
  - rewrite (insert_book_borrows sch _ _ _ _ _ _ H). apply bs_same.
  - apply bs_same.
  - exact (delete_book_step sch today _ _ _ H).
  - apply bs_same.
  - exact (delete_author_step sch today _ _ _ H).
  - unfold sql_insert_borrow in H. destruct (_ && _); inversion H; subst.
    cbn [Borrows]. apply bs_insert. exact Ho.
  - cbn [sql_update_return Borrows]. apply bs_return.
    destruct (select_outstanding_borrow d k) as [|x l] eqn:E; [contradiction |].
    assert (Hx : In x (select_outstanding_borrow d k)) by (rewrite E; left; reflexivity).
    unfold select_outstanding_borrow, join_borrows_books in Hx.
    apply in_flat_map in Hx. destruct Hx as [br [Hbr _]].
    apply filter_In in Hbr. apply existsb_exists. exists br. exact Hbr.
Qed.

Lemma NoDup_map_same {A} (f : A -> Z) (g : A -> A) (l : list A) :
  (forall x, f (g x) = f x) -> NoDup (map f l) -> NoDup (map f (map g l)).
Proof.
  intros H Hnd. rewrite map_map. erewrite map_ext; [exact Hnd |].
  intro x. apply H.
Qed.

Lemma NoDup_fresh {A} (f : A -> Z) (l : list A) x :
  f x = next_rowid (map f l) -> NoDup (map f l) -> NoDup (map f (l ++ [x])).
Proof.
  intros Hx Hnd. rewrite map_app. cbn [map]. apply NoDup_snoc; [exact Hnd |].
  intro Hin. apply next_rowid_gt in Hin. lia.
Qed.

Lemma stmt_step_keys sch today d d' :
  stmt_step sch today d d' -> keys_unique d -> keys_unique d'.
Proof.
  intros Hstep [HA [HB HR]].
  assert (HR' : NoDup (map BorrowID (Borrows d')))
    by exact (borrows_step_unique today _ _ (stmt_step_borrows _ _ _ _ Hstep) HR).
  unfold keys_unique. split; [| split; [| exact HR']]; clear HR'.
  - destruct Hstep as [n b | t p a d' k H | t k | k d' H | n b k | k d' H
                            | bk n d' k Hb Ho H | k Hne].
    + cbn [sql_insert_author fst Authors]. apply NoDup_fresh; [reflexivity | exact HA].
    + unfold sql_insert_book in H.
      destruct a; [destruct (_ && _) |]; inversion H; exact HA.
    + exact HA.
    + rewrite (proj1 (delete_book_gone _ _ _ _ H)). exact HA.
    + cbn [sql_update_author Authors]. apply NoDup_map_same; [| exact HA].
      intro x. destruct (AuthorID x =? k); reflexivity.
    + rewrite (proj1 (delete_author_gone _ _ _ _ H)).
      apply NoDup_map_filter. exact HA.
    + unfold sql_insert_borrow in H. destruct (_ && _); inversion H; exact HA.
    + exact HA.
  - destruct Hstep as [n b | t p a d' k H | t k | k d' H | n b k | k d' H
                            | bk n d' k Hb Ho H | k Hne].
    + exact HB.
    + unfold sql_insert_book in H.
      destruct a; [destruct (_ && _) |]; inversion H; subst; cbn [Books];
        apply NoDup_fresh; (reflexivity || exact HB).
    + cbn [sql_update_book_title Books]. apply NoDup_map_same; [| exact HB].
      intro x. destruct (BookID x =? k); reflexivity.
    + unfold sql_delete_book, delete_books_where in H.
      destruct (borrows_after_delete _ _ _); inversion H; subst. cbn [Books].
      apply NoDup_map_filter. exact HB.
    + exact HB.
    + unfold sql_delete_author in H. destruct (books_author_fk sch).
      * inversion H; exact HB.
      * destruct (existsb _ _); inversion H; exact HB.
      * inversion H; subst. cbn [Books]. apply NoDup_map_same; [| exact HB].
        intro x. destruct (_ && _); reflexivity.
      * unfold delete_books_where in H.
        destruct (borrows_after_delete _ _ _); inversion H; subst. cbn [Books].
        apply NoDup_map_filter. exact HB.
    + unfold sql_insert_borrow in H. destruct (_ && _); inversion H; exact HB.
    + exact HB.
Qed.

Lemma existsb_map_same {A} (P : A -> bool) (g : A -> A) (l : list A) :
  (forall x, P (g x) = P x) -> existsb P (map g l) = existsb P l.
Proof.
  intro H. induction l as [|x l IH]; cbn [map existsb]; [reflexivity |].
  rewrite H, IH. reflexivity.
Qed.

Lemma existsb_snoc_true {A} (P : A -> bool) (l : list A) x :
  existsb P l = true -> existsb P (l ++ [x]) = true.
Proof. intro H. rewrite existsb_app, H. reflexivity. Qed.

Lemma existsb_survives {A} (P Q : A -> bool) (l : list A) :
  existsb (fun x => Q x && P x) l = false ->
  existsb P l = true -> existsb P (filter (fun x => negb (Q x)) l) = true.
Proof.
  intros HQ HP. apply existsb_exists in HP. destruct HP as [x [Hx HPx]].
  apply existsb_exists. exists x. split; [| exact HPx].
  apply filter_In. split; [exact Hx |].
  destruct (Q x) eqn:E; [| reflexivity].
  assert (existsb (fun x => Q x && P x) l = true).
  { apply existsb_exists. exists x. rewrite E, HPx. auto. }
  congruence.
Qed.

(** A declared Borrows.BookID key leaves no Borrows row pointing at a
    deleted book. *)
Lemma delete_books_where_refs sch doomed books rows books' rows' :
  fk_declared (borrows_book_fk sch) = true ->
  delete_books_where sch doomed books rows = Some (books', rows') ->
  (forall r k, In r rows -> Borrow_BookID r = Some k ->
               existsb (fun b => BookID b =? k) books = true) ->
  forall r k, In r rows' -> Borrow_BookID r = Some k ->
              existsb (fun b => BookID b =? k) books' = true.
Proof.
  intros Hfk H Hold r k Hr Hk. unfold delete_books_where in H.
  set (gone := fun k0 => existsb (fun b => doomed b && (BookID b =? k0)) books) in *.
  assert (Hkeep : forall r0, In r0 rows -> Borrow_BookID r0 = Some k ->
                             refers_to gone (Borrow_BookID r0) = false ->
                             existsb (fun b => BookID b =? k)
                               (filter (fun b => negb (doomed b)) books) = true).
  { intros r0 Hr0 Hk0 Hno. rewrite Hk0 in Hno. cbn [refers_to] in Hno.
    apply existsb_survives; [exact Hno | exact (Hold r0 k Hr0 Hk0)]. }
  destruct (borrows_book_fk sch); cbn [borrows_after_delete] in H.
  - discriminate.
  - destruct (existsb _ rows) eqn:E; inversion H; subst.
    apply (Hkeep r Hr Hk).
    destruct (refers_to gone (Borrow_BookID r)) eqn:E2; [| reflexivity].
    assert (existsb (fun r0 => refers_to gone (Borrow_BookID r0)) rows' = true)
      by (apply existsb_exists; exists r; auto).
    congruence.
  - inversion H; subst. apply in_map_iff in Hr. destruct Hr as [r0 [Hg Hr0]].
    destruct (refers_to gone (Borrow_BookID r0)) eqn:E.
    + subst r. cbn [Borrow_BookID] in Hk. discriminate.
    + subst r. exact (Hkeep r0 Hr0 Hk E).
  - inversion H; subst. apply filter_In in Hr. destruct Hr as [Hr Hn].
    apply (Hkeep r Hr Hk). destruct (refers_to gone _); [discriminate | reflexivity].
Qed.

Lemma has_author_after_delete l k a :
  a <> k ->
  existsb (fun x => AuthorID x =? a) l = true ->
  existsb (fun x => AuthorID x =? a) (filter (fun x => negb (AuthorID x =? k)) l)
  = true.
Proof.
  intros Hne H. apply existsb_exists in H. destruct H as [x [Hx Hxa]].
  apply existsb_exists. exists x. split; [| exact Hxa].
  apply filter_In. split; [exact Hx |]. apply Z.eqb_eq in Hxa.
  apply negb_true_iff, Z.eqb_neq. congruence.
Qed.

Lemma stmt_step_refs sch today d d' :
  fk_declared (books_author_fk sch) = true ->
  fk_declared (borrows_book_fk sch) = true ->
  stmt_step sch today d d' -> references_ok d -> references_ok d'.
Proof.
  intros HfA HfB Hstep [HR HB]. unfold references_ok, has_book, has_author in *.
  destruct Hstep as [n b | t p a d' k H | t k | k d' H | n b k | k d' H
                            | bk n d' k Hb Ho H | k Hne].
  - cbn [sql_insert_author fst Authors Books Borrows]. split; [exact HR |].
    intros b0 k Hb0 Hk. apply existsb_snoc_true. exact (HB b0 k Hb0 Hk).
  - unfold sql_insert_book in H.
    assert (Hd' : d' = mkDB (Authors d)
                         (Books d ++ [mkBook (next_rowid (map BookID (Books d))) t p a])
                         (Borrows d) /\
                  (forall a0, a = Some a0 ->
                     existsb (fun x => AuthorID x =? a0) (Authors d) = true)).
    { destruct a as [a0|].
      - rewrite HfA in H. cbn [andb] in H. unfold has_author in H.
        destruct (existsb (fun x => AuthorID x =? a0) (Authors d)) eqn:E;
          cbn [negb] in H; inversion H; subst.
        split; [reflexivity |]. intros a1 Ha1. inversion Ha1; subst. exact E.
      - inversion H; subst. split; [reflexivity | discriminate]. }
    destruct Hd' as [-> Hnew]. cbn [Authors Books Borrows]. split.
    + intros r k0 Hr Hk. apply existsb_snoc_true. exact (HR r k0 Hr Hk).
    + intros b0 k0 Hb0 Hk. apply in_app_or in Hb0.
      destruct Hb0 as [Hb0 | [<- | []]]; [exact (HB b0 k0 Hb0 Hk) |].
      cbn [Book_AuthorID] in Hk. exact (Hnew k0 Hk).
  - cbn [sql_update_book_title Authors Books Borrows]. split.
    + intros r k0 Hr Hk. rewrite existsb_map_same; [exact (HR r k0 Hr Hk) |].
      intro x. destruct (BookID x =? k); reflexivity.
    + intros b0 k0 Hb0 Hk. apply in_map_iff in Hb0. destruct Hb0 as [x [Hx Hin]].
      apply (HB x k0 Hin). subst b0. destruct (BookID x =? k); exact Hk.
  - unfold sql_delete_book in H.
    destruct (delete_books_where _ _ _ _) as [[bk br]|] eqn:E; inversion H; subst.
    cbn [Authors Books Borrows]. split.
    + exact (delete_books_where_refs _ _ _ _ _ _ HfB E HR).
    + intros b0 k0 Hb0 Hk. unfold delete_books_where in E.
      destruct (borrows_after_delete _ _ _); inversion E; subst.
      apply filter_In in Hb0. exact (HB b0 k0 (proj1 Hb0) Hk).
  - cbn [sql_update_author Authors Books Borrows]. split; [exact HR |].
    intros b0 k0 Hb0 Hk. rewrite existsb_map_same; [exact (HB b0 k0 Hb0 Hk) |].
    intro x. destruct (AuthorID x =? k); reflexivity.
  - unfold sql_delete_author, has_author in H.
    assert (Hsafe : forall b0 k0, In b0 (Books d) -> Book_AuthorID b0 = Some k0 ->
               existsb (fun a => AuthorID a =? k) (Authors d)
               && opt_eqb (Book_AuthorID b0) k = false ->
               existsb (fun x => AuthorID x =? k0)
                 (filter (fun a => negb (AuthorID a =? k)) (Authors d)) = true).
    { intros b0 k0 Hb0 Hk Hno. pose proof (HB b0 k0 Hb0 Hk) as Hex.
      apply has_author_after_delete; [| exact Hex].
      intro E. subst k0. rewrite Hk in Hno. cbn [opt_eqb] in Hno.
      rewrite Hex, Z.eqb_refl in Hno. discriminate. }
    destruct (books_author_fk sch); [discriminate | | |].
    + destruct (existsb _ (Books d)) eqn:E; inversion H; subst.
      cbn [Authors Books Borrows]. split; [exact HR |].
      intros b0 k0 Hb0 Hk. apply (Hsafe b0 k0 Hb0 Hk).
      destruct (_ && _) eqn:E2; [| reflexivity].
      assert (existsb (fun b1 => existsb (fun a => AuthorID a =? k) (Authors d)
                                 && opt_eqb (Book_AuthorID b1) k) (Books d) = true)
        by (apply existsb_exists; exists b0; auto).
      congruence.
    + inversion H; subst. cbn [Authors Books Borrows]. split.
      * intros r k0 Hr Hk. rewrite existsb_map_same; [exact (HR r k0 Hr Hk) |].
        intro x. destruct (_ && _); reflexivity.
      * intros b0 k0 Hb0 Hk. apply in_map_iff in Hb0.
        destruct Hb0 as [x [Hx Hin]].
        destruct (existsb (fun a => AuthorID a =? k) (Authors d)
                  && opt_eqb (Book_AuthorID x) k) eqn:E.
        -- subst b0. cbn [Book_AuthorID] in Hk. discriminate.
        -- subst b0. exact (Hsafe x k0 Hin Hk E).
    + destruct (delete_books_where _ _ _ _) as [[bk br]|] eqn:E; inversion H; subst.
      cbn [Authors Books Borrows]. split.
      * exact (delete_books_where_refs _ _ _ _ _ _ HfB E HR).
      * intros b0 k0 Hb0 Hk. unfold delete_books_where in E.
        destruct (borrows_after_delete _ _ _); inversion E; subst.
        apply filter_In in Hb0. destruct Hb0 as [Hb0 Hn].
        apply (Hsafe b0 k0 Hb0 Hk). apply negb_true_iff in Hn. exact Hn.
  - unfold sql_insert_borrow in H. destruct (_ && _); inversion H; subst.
    cbn [Authors Books Borrows]. split; [| exact HB].
    intros r k0 Hr Hk. apply in_app_or in Hr.
    destruct Hr as [Hr | [<- | []]]; [exact (HR r k0 Hr Hk) |].
    cbn [Borrow_BookID] in Hk. inversion Hk; subst. exact Hb.
  - cbn [sql_update_return Authors Books Borrows]. split; [| exact HB].
    intros r k0 Hr Hk. apply in_map_iff in Hr. destruct Hr as [x [Hx Hin]].
    apply (HR x k0 Hin). subst r. destruct (BorrowID x =? k); exact Hk.
Qed.

(* ===================================================================== *)
(** ** Input lines and exceptions *)
(* ===================================================================== *)

Ltac behaved_leaf :=
  split;
  [ cbn [List.length]; lia
  | first [ left; eexists; reflexivity | right; split; reflexivity ] ].

Section Behaviour.

Variable sch : Schema.
Variable today : date.

Lemma add_author_behaved : well_behaved (add_author today).
Proof. intro w. unfold add_author. paths. all: behaved_leaf. Qed.

Lemma update_book_title_behaved : well_behaved update_book_title.
Proof. intro w. unfold update_book_title. paths. all: behaved_leaf. Qed.

Lemma delete_book_behaved : well_behaved (delete_book sch).
Proof. intro w. unfold delete_book. paths. all: behaved_leaf. Qed.

Lemma update_author_behaved : well_behaved (update_author today).
Proof. intro w. unfold update_author. paths. all: behaved_leaf. Qed.

Lemma delete_author_behaved : well_behaved (delete_author sch).
Proof. intro w. unfold delete_author. paths. all: behaved_leaf. Qed.

Lemma borrow_book_behaved : well_behaved (borrow_book sch today).
Proof. intro w. unfold borrow_book. paths. all: behaved_leaf. Qed.

Lemma return_book_behaved : well_behaved (return_book today).
Proof. intro w. unfold return_book. paths. all: behaved_leaf. Qed.

Lemma test_database_connection_behaved :
  well_behaved (test_database_connection sch).
Proof. intro w. unfold test_database_connection. paths. all: behaved_leaf. Qed.

End Behaviour.

Lemma add_book_behaved sch today : well_behaved (add_book sch today).
Proof.
  intro w. unfold add_book. mstep.
  repeat first
    [ progress views; mstep
    | match goal with
      | |- context [add_author today ?w0] =>
          let F := fresh "F" in
          pose proof (add_author_behaved today w0) as F;
          destruct (add_author today w0) as [[[|]|[| |]] ?];
          cbn [db stdin stdout fst snd] in F; mstep
      end
    | split_innermost ].
  all: try behaved_leaf.
  all: repeat match goal with
       | F : _ /\ _ |- _ => destruct F
       | F : _ \/ _ |- _ => destruct F
       | F : exists _, _ |- _ => destruct F
       end; try discriminate.
  all: try (split;
            [ cbn [List.length] in *; lia
            | first [ left; eexists; reflexivity
                    | right; split; [reflexivity | assumption] ] ]).
Qed.

Lemma view_all_books_behaved : well_behaved view_all_books.
Proof. intro w. rewrite view_all_books_run. cbn. split; [lia | eauto]. Qed.

Lemma view_authors_behaved : well_behaved view_authors.
Proof. intro w. rewrite view_authors_run. cbn. split; [lia | eauto]. Qed.

Lemma view_borrowed_books_behaved o : well_behaved (view_borrowed_books o).
Proof. intro w. rewrite view_borrowed_books_run. cbn. split; [lia | eauto]. Qed.

(* ===================================================================== *)
(** ** The menu loop *)
(* ===================================================================== *)

Lemma snd_then_true {A} (m : M A) w : snd ((m ;; ret true) w) = snd (m w).
Proof. unfold bind, ret. destruct (m w) as [[a|e] w']; reflexivity. Qed.

Section Loop.

Variable sch : Schema.
Variable today : date.

Lemma menu_choice_steps c w :
  stmt_steps sch today (db w) (db (snd (menu_choice sch today c w))).
Proof.
  unfold menu_choice. cbv zeta.
  repeat match goal with
         | |- context [if ?b then _ else _] => destruct b
         end;
    rewrite ?snd_then_true.
  - rewrite view_all_books_run. apply steps_done.
  - apply add_book_steps.
  - apply update_book_title_steps.
  - apply delete_book_steps.
  - rewrite view_authors_run. apply steps_done.
  - apply add_author_steps.
  - apply update_author_steps.
  - apply delete_author_steps.
  - apply borrow_book_steps.
  - apply return_book_steps.
  - rewrite view_borrowed_books_run. apply steps_done.
  - rewrite view_borrowed_books_run. apply steps_done.
  - apply test_database_connection_steps.
  - apply steps_done.
  - apply steps_done.
Qed.

Lemma menu_choice_stdin c w :
  (List.length (stdin (snd (menu_choice sch today c w)))
   <= List.length (stdin w))%nat.
Proof.
  unfold menu_choice. cbv zeta.
  repeat match goal with
         | |- context [if ?b then _ else _] => destruct b
         end;
    rewrite ?snd_then_true.
  - apply view_all_books_behaved.
  - apply add_book_behaved.
  - apply update_book_title_behaved.
  - apply delete_book_behaved.
  - apply view_authors_behaved.
  - apply add_author_behaved.
  - apply update_author_behaved.
  - apply delete_author_behaved.
  - apply borrow_book_behaved.
  - apply return_book_behaved.
  - apply view_borrowed_books_behaved.
  - apply view_borrowed_books_behaved.
  - apply test_database_connection_behaved.
  - cbn. lia.
  - cbn. lia.
Qed.

(** One pass: at the end of the input the prompt raises EOFError; with a
    line to read the pass always comes back (its handler catches what the
    chosen function lets out), having run guarded statements and left
    fewer lines than it found. *)
Lemma menu_pass_spec w :
  match stdin w with
  | [] => fst (menu_pass sch today w) = Raised EOFError
          /\ db (snd (menu_pass sch today w)) = db w
  | _ :: rest =>
      (exists go_on, fst (menu_pass sch today w) = Return go_on)
      /\ stmt_steps sch today (db w) (db (snd (menu_pass sch today w)))
      /\ (List.length (stdin (snd (menu_pass sch today w)))
          <= List.length rest)%nat
  end.
Proof.
  unfold menu_pass. mstep. destruct (stdin w) as [|s rest] eqn:E; mstep.
  - split; reflexivity.
  - match goal with
    | |- context [menu_choice sch today ?c ?w0] =>
        pose proof (menu_choice_steps c w0) as Hs;
        pose proof (menu_choice_stdin c w0) as Hl;
        destruct (menu_choice sch today c w0) as [[b|e] w1]
    end; cbn [db stdin stdout fst snd] in *; mstep; eauto.
Qed.

Lemma menu_loop_steps fuel w :
  stmt_steps sch today (db w) (db (snd (menu_loop sch today fuel w))).
Proof.
  revert w. induction fuel as [|n IH]; intro w; cbn [menu_loop].
  - apply steps_done.
  - unfold bind. pose proof (menu_pass_spec w) as H.
    destruct (menu_pass sch today w) as [[b|e] w1]; cbn [fst snd] in *.
    + assert (Hs : stmt_steps sch today (db w) (db w1)).
      { destruct (stdin w); [destruct H as [H _]; discriminate | tauto]. }
      destruct b; [| exact Hs].
      eapply stmt_steps_trans; [exact Hs | apply IH].
    + destruct (stdin w).
      * destruct H as [_ ->]. apply steps_done.
      * destruct H as [[b Hb] _]. discriminate.
Qed.

(** With more fuel than input lines the loop never stops for lack of
    fuel, and any larger fuel gives the same run. *)
Lemma menu_loop_fuel fuel w :
  (List.length (stdin w) < fuel)%nat ->
  (fst (menu_loop sch today fuel w) = Return (Some tt)
   \/ fst (menu_loop sch today fuel w) = Raised EOFError)
  /\ forall fuel', (fuel <= fuel')%nat ->
                   menu_loop sch today fuel' w = menu_loop sch today fuel w.
Proof.
  revert w. induction fuel as [|n IH]; intros w Hlen; [lia |].
  pose proof (menu_pass_spec w) as H.
  assert (Hnext : forall w1, menu_pass sch today w = (Return true, w1) ->
                             (List.length (stdin w1) < n)%nat).
  { intros w1 E. rewrite E in H. cbn [fst snd] in H.
    destruct (stdin w); [destruct H as [H _]; discriminate |].
    cbn [List.length] in Hlen. lia. }
  split.
  - cbn [menu_loop]. unfold bind.
    destruct (menu_pass sch today w) as [[[|]|e] w1] eqn:E; cbn [fst snd] in *.
    + apply (IH w1). apply Hnext. reflexivity.
    + left. reflexivity.
    + destruct (stdin w).
      * destruct H as [H _]. right. inversion H. reflexivity.
      * destruct H as [[b Hb] _]. discriminate.
  - intros fuel' Hle. destruct fuel' as [|m]; [lia |].
    cbn [menu_loop]. unfold bind.
    destruct (menu_pass sch today w) as [[[|]|e] w1] eqn:E; try reflexivity.
    apply (IH w1); [apply Hnext; reflexivity | lia].
Qed.

Lemma create_connection_run m w :
  db (snd (create_connection m w)) = db w
  /\ stdin (snd (create_connection m w)) = stdin w
  /\ fst (create_connection m w) = Return (file_exists m).
Proof. unfold create_connection. destruct (file_exists m); mstep; auto. Qed.

Lemma verify_database_structure_run m w :
  db (snd (verify_database_structure m w)) = db w
  /\ stdin (snd (verify_database_structure m w)) = stdin w
  /\ fst (verify_database_structure m w)
     = Return (forallb (fun t => mem_string t (table_names m)) required_tables).
Proof.
  unfold verify_database_structure, required_tables. cbn [filter forallb].
  destruct (mem_string "Authors" _), (mem_string "Books" _),
    (mem_string "Borrows" _); cbn [negb andb]; mstep; auto.
Qed.

Lemma main_menu_steps m w :
  stmt_steps sch today (db w) (db (snd (main_menu sch today m w))).
Proof.
  unfold main_menu. mstep.
  match goal with
  | |- context [create_connection m ?w0] =>
      destruct (create_connection_run m w0) as [Hd [_ Hr]];
      destruct (create_connection m w0) as [o w1]
  end.
  cbn [db stdin stdout fst snd] in *. subst o.
  destruct (file_exists m); cbn [negb]; mstep; [| rewrite Hd; apply steps_done].
  destruct (verify_database_structure_run m w1) as [Hd2 [_ Hr2]].
  destruct (verify_database_structure m w1) as [o w2].
  cbn [fst snd] in *. subst o.
  destruct (forallb _ _); cbn [negb]; mstep;
    [| rewrite Hd2, Hd; apply steps_done].
  pose proof (test_database_connection_steps sch today w2) as Ht.
  rewrite Hd2, Hd in Ht.
  destruct (test_database_connection sch w2) as [[[|]|e] w3];
    cbn [fst snd negb] in *; mstep; try exact Ht.
  pose proof (menu_loop_steps (S (List.length (stdin w3))) w3) as Hl.
  destruct (menu_loop sch today _ w3) as [[o|e] w4]; cbn [fst snd] in *; mstep;
    eapply stmt_steps_trans; eassumption.
Qed.

End Loop.

(* ===================================================================== *)
(** ** Invariants of the tables, per function and per session *)
(* ===================================================================== *)

Lemma stmt_steps_keys sch today d d' :
  stmt_steps sch today d d' -> keys_unique d -> keys_unique d'.
Proof.
  induction 1 as [| d' d'' _ IH Hstep]; intro H; [exact H |].
  exact (stmt_step_keys _ _ _ _ Hstep (IH H)).
Qed.

Lemma stmt_steps_refs sch today d d' :
  fk_declared (books_author_fk sch) = true ->
  fk_declared (borrows_book_fk sch) = true ->
  stmt_steps sch today d d' -> references_ok d -> references_ok d'.
Proof.
  intros HA HB. induction 1 as [| d' d'' _ IH Hstep]; intro H; [exact H |].
  exact (stmt_step_refs _ _ _ _ HA HB Hstep (IH H)).
Qed.

Lemma stmt_steps_single_open sch today d d' :
  stmt_steps sch today d d' -> single_open d -> single_open d'.
Proof.
  induction 1 as [| d' d'' _ IH Hstep]; intro H; [exact H |].
  intro b.
  exact (borrows_step_single_open today _ _ (stmt_step_borrows _ _ _ _ Hstep)
           (IH H) b).
Qed.

Lemma demo_keys_unique : keys_unique demo_db.
Proof.
  unfold keys_unique, demo_db. cbn [Authors Books Borrows map AuthorID BookID BorrowID].
  repeat split; repeat constructor; cbn [In]; intuition discriminate.
Qed.

Lemma demo_references_ok : references_ok demo_db.
Proof.
  split.
  - intros r k [<- | [<- | []]] Hk; inversion Hk; reflexivity.
  - intros b k [<- | [<- | []]] Hk; inversion Hk; reflexivity.
Qed.

(** X1. Primary keys stay primary keys: if no two rows of a table share
    their id, the same holds after any mutating function of the menu, run
    on any input, and after any sequence of them (an INSERT takes a rowid
    above all those in the table, UPDATE and DELETE create no id). *)
Theorem keys_stay_unique sch today (w : World) :
  keys_unique (db w) ->
  (forall op, keys_unique (db (snd (run sch today op w)))) /\
  (forall ops, keys_unique (db (run_all sch today ops w))).
Proof.
  assert (Hone : forall w0 op, keys_unique (db w0) ->
                               keys_unique (db (snd (run sch today op w0)))).
  { intros w0 op. apply stmt_steps_keys with (sch := sch) (today := today).
    apply run_steps. }
  intro H. split; [intro op; apply Hone; exact H |].
  intro ops. revert w H. induction ops as [|op ops IH]; intros w H; cbn [run_all].
  - exact H.
  - apply IH. apply Hone. exact H.
Qed.

Lemma keys_stay_unique_witness :
  keys_unique demo_db /\
  keys_unique
    (db (run_all cascading demo_today [AddBook; BorrowBook; DeleteAuthor]
           (mkWorld demo_db ["Solaris"; "1961"; "3"; "3"; "Dan"; "1"; "yes"] []))).
Proof.
  split; [exact demo_keys_unique |].
  apply (keys_stay_unique cascading demo_today
           (mkWorld demo_db ["Solaris"; "1961"; "3"; "3"; "Dan"; "1"; "yes"] [])).
  exact demo_keys_unique.
Defined.

(** X2. With both foreign keys declared (any ON DELETE action) and
    enforced, referential integrity is kept by every mutating function of
    the menu on any input, and by any sequence of them: every Borrows row
    with a BookID refers to a Books row, every Books row with an AuthorID
    to an Authors row.  Where the store does not check ([add_book] choice
    1, [borrow_book]) the script has looked the parent row up itself. *)
Theorem references_stay_valid sch today (w : World) :
  fk_declared (books_author_fk sch) = true ->
  fk_declared (borrows_book_fk sch) = true ->
  references_ok (db w) ->
  (forall op, references_ok (db (snd (run sch today op w)))) /\
  (forall ops, references_ok (db (run_all sch today ops w))).
Proof.
  intros HA HB.
  assert (Hone : forall w0 op, references_ok (db w0) ->
                               references_ok (db (snd (run sch today op w0)))).
  { intros w0 op. apply (stmt_steps_refs sch today _ _ HA HB). apply run_steps. }
  intro H. split; [intro op; apply Hone; exact H |].
  intro ops. revert w H. induction ops as [|op ops IH]; intros w H; cbn [run_all].
  - exact H.
  - apply IH. apply Hone. exact H.
Qed.

Lemma references_stay_valid_witness :
  references_ok demo_db /\
  references_ok
    (db (run_all plain_author_key demo_today [DeleteBook; DeleteAuthor; AddBook]
           (mkWorld demo_db ["1"; "yes"; "1"; "yes"; "Solaris"; ""; "1"; "1"] []))).
Proof.
  split; [exact demo_references_ok |].
  apply (references_stay_valid plain_author_key demo_today
           (mkWorld demo_db ["1"; "yes"; "1"; "yes"; "Solaris"; ""; "1"; "1"] [])
           eq_refl eq_refl).
  exact demo_references_ok.
Defined.

(** X3. A whole session keeps the tables sound. Whatever the machine and
    whatever is typed, [main_menu] (start-up checks, the write test, then
    the menu loop until Exit or the end of the input) ends with at most one
    open Borrows row per book if it started so, with unique ids if it
    started so, and, when both foreign keys are declared, with valid
    references if it started so. *)
Theorem session_keeps_invariants sch today (m : Machine) (w : World) :
  let w' := snd (main_menu sch today m w) in
  (single_open (db w) -> single_open (db w')) /\
  (keys_unique (db w) -> keys_unique (db w')) /\
  (fk_declared (books_author_fk sch) = true ->
   fk_declared (borrows_book_fk sch) = true ->
   references_ok (db w) -> references_ok (db w')).
Proof.
  cbn zeta. pose proof (main_menu_steps sch today m w) as H.
  split; [| split].
  - exact (stmt_steps_single_open _ _ _ _ H).
  - exact (stmt_steps_keys _ _ _ _ H).
  - intros HA HB. exact (stmt_steps_refs _ _ _ _ HA HB H).
Qed.

Lemma session_keeps_invariants_witness :
  let w := mkWorld demo_db ["9"; "2"; "Dan"; "10"; "1"; "4"; "2"; "yes"; "14"] [] in
  let w' := snd (main_menu cascading demo_today demo_machine w) in
  single_open (db w') /\ keys_unique (db w') /\ references_ok (db w').
Proof.
  cbn zeta.
  destruct (session_keeps_invariants cascading demo_today demo_machine
              (mkWorld demo_db
                 ["9"; "2"; "Dan"; "10"; "1"; "4"; "2"; "yes"; "14"] []))
    as [H1 [H2 H3]].
  split; [exact (H1 demo_single_open) |].
  split; [exact (H2 demo_keys_unique) |].
  exact (H3 eq_refl eq_refl demo_references_ok).
Defined.

(* ===================================================================== *)
(** ** The session: start-up, loop and exit *)
(* ===================================================================== *)

(** X4. The menu loop ends. Unrolled more times than there are input lines
    it never stops for lack of fuel: it is left through Exit, or stops with
    EOFError at the prompt when the input is exhausted; and the run does
    not depend on the fuel once there is that much, so the fuel
    [main_menu] takes (one more than the lines waiting) is enough. *)
Theorem menu_loop_ends sch today (w : World) (fuel : nat) :
  (List.length (stdin w) < fuel)%nat ->
  (fst (menu_loop sch today fuel w) = Return (Some tt)
   \/ fst (menu_loop sch today fuel w) = Raised EOFError)
  /\ menu_loop sch today fuel w
     = menu_loop sch today (S (List.length (stdin w))) w.
Proof.
  intro Hlen. split.
  - apply (menu_loop_fuel sch today fuel w Hlen).
  - apply (menu_loop_fuel sch today (S (List.length (stdin w))) w); lia.
Qed.

Lemma menu_loop_ends_witness :
  let w := mkWorld demo_db ["5"; "exit"; "14"; "1"] [] in
  fst (menu_loop cascading demo_today 9 w) = Return (Some tt)
  \/ fst (menu_loop cascading demo_today 9 w) = Raised EOFError.
Proof.
  cbn zeta.
  apply (menu_loop_ends cascading demo_today
           (mkWorld demo_db ["5"; "exit"; "14"; "1"] []) 9).
  cbn. lia.
Defined.

Lemma not_a_choice c :
  mem_string c menu_choices = false ->
  forall k, In k menu_choices -> (c =? k)%string = false.
Proof.
  intros H k Hk. unfold mem_string in H.
  destruct (c =? k)%string eqn:E; [| reflexivity].
  assert (existsb (fun n => (n =? c)%string) menu_choices = true).
  { apply existsb_exists. exists k. split; [exact Hk |].
    rewrite String.eqb_sym. exact E. }
  congruence.
Qed.

(** X5. What a pass of the menu does with the choice line, once stripped:
    "14" prints the goodbye line and leaves the loop with the tables
    untouched and the following lines unread, after which [menu_loop]
    returns; a line that is none of "1" .. "14" prints "Invalid choice.
    Please enter a number between 1 and 14.", changes nothing and goes on
    to the next pass. *)
Theorem menu_exit_and_invalid sch today (w : World) s rest :
  stdin w = s :: rest ->
  (Py.strip s = "14" ->
   forall fuel,
     menu_loop sch today (S fuel) w
     = (Return (Some tt),
        mkWorld (db w) rest
          (stdout w ++ menu_lines
           ++ ["Enter your choice (1-14): ";
               "Thank you for using the Library System. Goodbye!"])))
  /\
  (mem_string (Py.strip s) menu_choices = false ->
   menu_pass sch today w
   = (Return true,
      mkWorld (db w) rest
        (stdout w ++ menu_lines
         ++ ["Enter your choice (1-14): ";
             "Invalid choice. Please enter a number between 1 and 14."]))).
Proof.
  intro Hin. split.
  - intros H14 fuel. cbn [menu_loop]. unfold menu_pass. mstep. rewrite Hin.
    mstep. unfold menu_choice. rewrite H14. cbv zeta.
    cbn [String.eqb Ascii.eqb Bool.eqb]. mstep.
    repeat rewrite <- app_assoc. reflexivity.
  - intro Hno. pose proof (not_a_choice _ Hno) as H.
    unfold menu_pass. mstep. rewrite Hin. mstep. unfold menu_choice. cbv zeta.
    rewrite !H by (cbn; tauto). mstep.
    repeat rewrite <- app_assoc. reflexivity.
Qed.

Lemma menu_exit_and_invalid_witness :
  fst (menu_loop cascading demo_today 1 (mkWorld demo_db [" 14 "; "1"] []))
  = Return (Some tt)
  /\ fst (menu_pass cascading demo_today (mkWorld demo_db ["quit"] []))
     = Return true.
Proof.
  split.
  - rewrite (proj1 (menu_exit_and_invalid cascading demo_today
                      (mkWorld demo_db [" 14 "; "1"] []) " 14 " ["1"] eq_refl)
               eq_refl 0%nat).
    reflexivity.
  - rewrite (proj2 (menu_exit_and_invalid cascading demo_today
                      (mkWorld demo_db ["quit"] []) "quit" [] eq_refl) eq_refl).
    reflexivity.
Defined.

(** X6. Start-up failures stop the program before anything is read or
    written: when the database file is missing, or when one of the tables
    Authors, Books, Borrows is not in the database, [main_menu] returns
    with the tables and the input untouched, its last line being the
    matching failure message. *)
Theorem main_menu_refuses_to_start sch today (m : Machine) (w : World) :
  file_exists m = false
  \/ forallb (fun t => mem_string t (table_names m)) required_tables = false ->
  let w' := snd (main_menu sch today m w) in
  fst (main_menu sch today m w) = Return (Some tt) /\
  db w' = db w /\ stdin w' = stdin w /\
  last (stdout w') ""
  = (if file_exists m
     then "Database structure verification failed. Please check your database."
     else "Failed to connect to database. Exiting...").
Proof.
  intro H. cbn zeta. unfold main_menu. mstep.
  match goal with
  | |- context [create_connection m ?w0] =>
      destruct (create_connection_run m w0) as [Hd [Hs Hr]];
      destruct (create_connection m w0) as [o w1]
  end.
  cbn [db stdin stdout fst snd] in *. subst o.
  destruct (file_exists m); cbn [negb]; mstep.
  - destruct H as [H | H]; [discriminate |].
    destruct (verify_database_structure_run m w1) as [Hd2 [Hs2 Hr2]].
    destruct (verify_database_structure m w1) as [o w2].
    cbn [fst snd] in *. subst o. rewrite H. cbn [negb]. mstep.
    rewrite Hd2, Hd, Hs2, Hs, last_last. auto.
  - rewrite Hd, Hs, last_last. auto.
Qed.

Lemma main_menu_refuses_to_start_witness :
  let m := mkMachine true "/tmp" ["libraryDB.sqlite"] ["Authors"; "Books"] in
  let w := mkWorld demo_db ["2"; "Solaris"] [] in
  fst (main_menu cascading demo_today m w) = Return (Some tt) /\
  db (snd (main_menu cascading demo_today m w)) = demo_db /\
  stdin (snd (main_menu cascading demo_today m w)) = ["2"; "Solaris"].
Proof.
  cbn zeta.
  pose proof (main_menu_refuses_to_start cascading demo_today
                (mkMachine true "/tmp" ["libraryDB.sqlite"] ["Authors"; "Books"])
                (mkWorld demo_db ["2"; "Solaris"] []) (or_intror eq_refl)) as H.
  cbn zeta in H. destruct H as [H1 [H2 [H3 _]]]. auto.
Defined.

(** X7. [verify_database_structure] answers True exactly when Authors,
    Books and Borrows are all among the tables of the database (other
    tables do not matter); it reads no input and writes to no table, and
    on True its last three lines are the row counts of the three tables. *)
Theorem verify_database_structure_spec (m : Machine) (w : World) :
  let w' := snd (verify_database_structure m w) in
  (exists ok, fst (verify_database_structure m w) = Return ok /\
              (ok = true <->
               forall t, In t required_tables -> In t (table_names m))) /\
  db w' = db w /\ stdin w' = stdin w /\
  (fst (verify_database_structure m w) = Return true ->
   exists out,
     stdout w'
     = out ++ ["  Authors: " +++ Py.str (Z.of_nat (List.length (Authors (db w))))
                 +++ " records";
               "  Books: " +++ Py.str (Z.of_nat (List.length (Books (db w))))
                 +++ " records";
               "  Borrows: " +++ Py.str (Z.of_nat (List.length (Borrows (db w))))
                 +++ " records"]).
Proof.
  cbn zeta. destruct (verify_database_structure_run m w) as [Hd [Hs Hr]].
  split; [| split; [exact Hd | split; [exact Hs |]]].
  - eexists. split; [exact Hr |]. rewrite forallb_forall. split.
    + intros H t Ht. specialize (H t Ht). unfold mem_string in H.
      apply existsb_exists in H. destruct H as [n [Hn E]].
      apply String.eqb_eq in E. subst n. exact Hn.
    + intros H t Ht. unfold mem_string. apply existsb_exists. exists t.
      split; [exact (H t Ht) | apply String.eqb_refl].
  - rewrite Hr. intro Hok. inversion Hok as [Hall]. clear Hok Hr Hd Hs.
    unfold verify_database_structure, required_tables in *.
    cbn [forallb filter] in *.
    destruct (mem_string "Authors" _), (mem_string "Books" _),
      (mem_string "Borrows" _); try discriminate.
    cbn [negb]. mstep. eexists. reflexivity.
Qed.

Lemma map_unchanged {A} (g : A -> A) (l : list A) :
  (forall x, In x l -> g x = x) -> map g l = l.
Proof.
  induction l as [|a l IH]; cbn [map]; intro H; [reflexivity |].
  rewrite (H a (or_introl eq_refl)). f_equal. apply IH.
  intros x Hx. apply H. right. exact Hx.
Qed.

Lemma borrows_after_delete_nothing act gone rows :
  (forall k, gone k = false) -> borrows_after_delete act gone rows = Some rows.
Proof.
  intro H.
  assert (Hr : forall r, refers_to gone (Borrow_BookID r) = false).
  { intro r. destruct (Borrow_BookID r); cbn [refers_to]; auto. }
  destruct act; cbn [borrows_after_delete].
  - reflexivity.
  - rewrite existsb_none; [reflexivity | intros; apply Hr].
  - rewrite map_unchanged; [reflexivity |]. intros r _. rewrite Hr. reflexivity.
  - rewrite filter_all; [reflexivity |]. intros r _. rewrite Hr. reflexivity.
Qed.

(** Deleting the author that was just inserted gives the tables back,
    when no book refers to an author that is not there. *)
Lemma delete_after_insert sch d name birth_year :
  (forall b k, In b (Books d) -> Book_AuthorID b = Some k ->
               has_author d k = true) ->
  sql_delete_author sch (fst (sql_insert_author d name birth_year))
    (snd (sql_insert_author d name birth_year)) = inr d.
Proof.
  intro Hrefs. destruct d as [A B R].
  unfold sql_insert_author. cbn [fst snd Authors Books Borrows] in *.
  set (k := next_rowid (map AuthorID A)).
  assert (Hold : forall a, In a A -> negb (AuthorID a =? k) = true).
  { intros a Ha. apply negb_true_iff, Z.eqb_neq.
    assert (AuthorID a < k) by (apply next_rowid_gt, in_map, Ha). lia. }
  assert (Hfresh : forall b, In b B -> opt_eqb (Book_AuthorID b) k = false).
  { intros b Hb. destruct (Book_AuthorID b) as [j|] eqn:E; [| reflexivity].
    cbn [opt_eqb]. apply Z.eqb_neq. intro Ej. subst j.
    specialize (Hrefs b k Hb E). unfold has_author in Hrefs. cbn [Authors] in Hrefs.
    apply existsb_exists in Hrefs. destruct Hrefs as [a [Ha Hk]].
    specialize (Hold a Ha). rewrite Hk in Hold. discriminate. }
  assert (HA : filter (fun a => negb (AuthorID a =? k))
                 (A ++ [mkAuthor k name birth_year]) = A).
  { rewrite filter_app. cbn [filter AuthorID]. rewrite Z.eqb_refl. cbn [negb].
    rewrite app_nil_r. apply filter_all. exact Hold. }
  unfold sql_delete_author. cbn [Authors Books Borrows]. rewrite HA.
  set (orphan := fun b => has_author _ k && opt_eqb (Book_AuthorID b) k).
  assert (Ho : forall b, In b B -> orphan b = false).
  { intros b Hb. unfold orphan. rewrite (Hfresh b Hb). apply andb_false_r. }
  destruct (books_author_fk sch).
  - reflexivity.
  - rewrite (existsb_none _ _ Ho). reflexivity.
  - rewrite map_unchanged; [reflexivity |]. intros b Hb. cbv beta.
    fold (orphan b). rewrite (Ho b Hb). reflexivity.
  - unfold delete_books_where. rewrite borrows_after_delete_nothing.
    + rewrite filter_all; [reflexivity |]. intros b Hb. cbv beta.
      fold (orphan b). rewrite (Ho b Hb). reflexivity.
    + intro j. apply existsb_none. intros b Hb. cbv beta.
      fold (orphan b). rewrite (Ho b Hb). reflexivity.
Qed.

(** X8. The write test cleans up after itself. On tables where every
    Books row with an AuthorID refers to an Authors row,
    [test_database_connection] returns True, under any foreign-key
    declaration, and the three tables are exactly what they were: the
    "Test Author" row it inserts gets an unused id, is read back, and is
    deleted again without touching any other row; no input is read. *)
Theorem test_database_connection_clean sch (w : World) :
  (forall b k, In b (Books (db w)) -> Book_AuthorID b = Some k ->
               has_author (db w) k = true) ->
  test_database_connection sch w
  = (Return true,
     mkWorld (db w) (stdin w)
       (stdout w ++ [nl +++ "--- Database Connection Test ---";
                     "Testing database write capability...";
                     "✓ Database write/read test successful!";
                     "✓ Test cleanup completed."])).
Proof.
  intro Hrefs.
  pose proof (delete_after_insert sch (db w) "Test Author" (Some 2000) Hrefs) as Hdel.
  pose proof (inserted_once (db w) "Test Author" (Some 2000)) as Hone.
  cbn zeta in Hone.
  unfold test_database_connection. mstep.
  destruct (sql_insert_author (db w) "Test Author" (Some 2000)) as [d1 k] eqn:E.
  assert (Hk : k = next_rowid (map AuthorID (Authors (db w)))).
  { unfold sql_insert_author in E. inversion E. reflexivity. }
  cbn [fst snd] in *. mstep. unfold select_author. rewrite Hk, Hone.
  cbn [fetchone hd_error AuthorName]. cbn [String.eqb Ascii.eqb Bool.eqb].
  mstep. rewrite <- Hk, Hdel. mstep.
  repeat rewrite <- app_assoc. reflexivity.
Qed.

Lemma test_database_connection_clean_witness :
  fst (test_database_connection plain_author_key (mkWorld demo_db ["1"] []))
  = Return true
  /\ db (snd (test_database_connection plain_author_key
                (mkWorld demo_db ["1"] []))) = demo_db.
Proof.
  rewrite (test_database_connection_clean plain_author_key
             (mkWorld demo_db ["1"] []) (proj2 demo_references_ok)).
  split; reflexivity.
Defined.

(* ===================================================================== *)
(** ** What each function leaves alone *)
(* ===================================================================== *)

Lemma insert_book_frame sch d t p a d' k :
  sql_insert_book sch d t p a = inr (d', k) ->
  Authors d' = Authors d /\ Borrows d' = Borrows d.
Proof.
  unfold sql_insert_book. intro H.
  destruct a; [destruct (_ && _) |]; inversion H; split; reflexivity.
Qed.

Lemma insert_borrow_frame sch d b n dt d' k :
  sql_insert_borrow sch d b n dt = inr (d', k) ->
  Authors d' = Authors d /\ Books d' = Books d.
Proof.
  unfold sql_insert_borrow. intro H.
  destruct (_ && _); inversion H; split; reflexivity.
Qed.

Ltac frame_leaf :=
  repeat match goal with
         | H : sql_insert_author _ _ _ = (_, _) |- _ =>
             unfold sql_insert_author in H; inversion H; subst; clear H
         | H : sql_insert_book _ _ _ _ _ = inr _ |- _ =>
             apply insert_book_frame in H; destruct H
         | H : sql_insert_borrow _ _ _ _ _ = inr _ |- _ =>
             apply insert_borrow_frame in H; destruct H
         | H : sql_delete_book _ _ _ = inr _ |- _ =>
             apply delete_book_gone in H; destruct H as [? _]
         end;
  cbn [sql_update_book_title sql_update_author sql_update_return
       Authors Books Borrows];
  repeat split; try reflexivity; try congruence.

(** X9. Which tables a function can write to, whatever it is given:
    [add_author] and [update_author] leave Books and Borrows as they are;
    [update_book_title] leaves Authors and Borrows, and the ids of Books;
    [add_book] leaves Borrows; [borrow_book] and [return_book] leave
    Authors and Books; [delete_book] leaves Authors; the three listings
    leave everything, the pending input included. *)
Theorem tables_left_alone sch today (w : World) :
  (Books (db (snd (add_author today w))) = Books (db w)
   /\ Borrows (db (snd (add_author today w))) = Borrows (db w)) /\
  (Books (db (snd (update_author today w))) = Books (db w)
   /\ Borrows (db (snd (update_author today w))) = Borrows (db w)) /\
  (Authors (db (snd (update_book_title w))) = Authors (db w)
   /\ Borrows (db (snd (update_book_title w))) = Borrows (db w)
   /\ map BookID (Books (db (snd (update_book_title w))))
      = map BookID (Books (db w))) /\
  Borrows (db (snd (add_book sch today w))) = Borrows (db w) /\
  (Authors (db (snd (borrow_book sch today w))) = Authors (db w)
   /\ Books (db (snd (borrow_book sch today w))) = Books (db w)) /\
  (Authors (db (snd (return_book today w))) = Authors (db w)
   /\ Books (db (snd (return_book today w))) = Books (db w)) /\
  Authors (db (snd (delete_book sch w))) = Authors (db w) /\
  (forall only_outstanding,
      db (snd (view_all_books w)) = db w /\ stdin (snd (view_all_books w)) = stdin w
      /\ db (snd (view_authors w)) = db w /\ stdin (snd (view_authors w)) = stdin w
      /\ db (snd (view_borrowed_books only_outstanding w)) = db w
      /\ stdin (snd (view_borrowed_books only_outstanding w)) = stdin w).
Proof.
  split; [exact (add_author_frame today w) |].
  split; [unfold update_author; paths; frame_leaf |].
  split.
  { assert (Hids : forall t k,
               map BookID (Books (sql_update_book_title (db w) t k))
               = map BookID (Books (db w))).
    { intros t k. cbn [sql_update_book_title Books]. rewrite map_map.
      apply map_ext. intro b. destruct (BookID b =? k); reflexivity. }
    unfold update_book_title; paths.
    all: try (repeat split; reflexivity).
    all: repeat split; try reflexivity; apply Hids. }
  split.
  { unfold add_book. mstep.
    repeat first
      [ progress views; mstep
      | match goal with
        | |- context [add_author today ?w0] =>
            let F := fresh "F" in
            destruct (add_author_frame today w0) as [_ F];
            destruct (add_author today w0) as [[[|]|] ?];
            cbn [db stdin stdout fst snd] in F; mstep
        end
      | split_innermost ].
    all: frame_leaf. }
  split; [unfold borrow_book; paths; frame_leaf |].
  split; [unfold return_book; paths; frame_leaf |].
  split; [unfold delete_book; paths; frame_leaf |].
  intro o. rewrite view_all_books_run, view_authors_run, view_borrowed_books_run.
  cbn [db stdin fst snd]. repeat split.
Qed.

(** X10. On input whose numbers the store can hold, no function of the
    menu lets an exception other than the end of the input escape, and
    none reads past what it is given: each of the eight mutating functions
    returns True or False, or stops with EOFError exactly when it has used
    up every input line; a malformed number or a rejected statement is
    always turned into the return value False. *)
Theorem functions_end_cleanly sch today (op : operation) (w : World) :
  numbers_fit (stdin w) = true ->
  let r := run sch today op w in
  (fst r = Return true \/ fst r = Return false
   \/ (fst r = Raised EOFError /\ stdin (snd r) = []))
  /\ (List.length (stdin (snd r)) <= List.length (stdin w))%nat.
Proof.
  intros _. cbn zeta.
  assert (H : (List.length (stdin (snd (run sch today op w)))
               <= List.length (stdin w))%nat /\
              ((exists a, fst (run sch today op w) = Return a) \/
               (fst (run sch today op w) = Raised EOFError
                /\ stdin (snd (run sch today op w)) = []))).
  { destruct op; cbn [run].
    - apply add_book_behaved.
    - apply update_book_title_behaved.
    - apply delete_book_behaved.
    - apply add_author_behaved.
    - apply update_author_behaved.
    - apply delete_author_behaved.
    - apply borrow_book_behaved.
    - apply return_book_behaved. }
  destruct H as [Hl [[[|] Ha] | He]]; auto.
Qed.

Lemma functions_end_cleanly_witness :
  let r := run cascading demo_today UpdateBookTitle
               (mkWorld demo_db ["x1"; "Emma"] []) in
  (fst r = Return true \/ fst r = Return false
   \/ (fst r = Raised EOFError /\ stdin (snd r) = []))
  /\ (List.length (stdin (snd r)) <= 2)%nat.
Proof.
  cbn zeta.
  exact (functions_end_cleanly cascading demo_today UpdateBookTitle
           (mkWorld demo_db ["x1"; "Emma"] []) eq_refl).
Defined.

(* ===================================================================== *)
(** ** Ids that are not numbers, ids that are not there *)
(* ===================================================================== *)


(** X11. An id that [int] cannot read is refused the same way by the six
    functions that start by asking for one ([update_book_title],
    [delete_book], [update_author], [delete_author], [borrow_book],
    [return_book]): the function returns False, reads no further line,
    writes to no table, and its last line is "Invalid ID. Please enter a
    number." ("Invalid input. Please enter valid numbers." for
    [update_author]). *)
Theorem non_numeric_id_rejected sch today (op : operation) (w : World) s rest :
  op <> AddBook -> op <> AddAuthor ->
  stdin w = s :: rest ->
  Py.int s = None ->
  let w' := snd (run sch today op w) in
  fst (run sch today op w) = Return false /\
  db w' = db w /\ stdin w' = rest /\
  last (stdout w') ""
  = match op with
    | UpdateAuthor => "Invalid input. Please enter valid numbers."
    | _ => "Invalid ID. Please enter a number."
    end.
Proof.
  intros Hb Ha Hin Hs. cbn zeta.
  destruct op; try contradiction; cbn [run].
  - unfold update_book_title. mstep. views. rewrite Hin. mstep. rewrite Hs.
    mstep. rewrite last_last. auto.
  - unfold delete_book. mstep. views. rewrite Hin. mstep. rewrite Hs.
    mstep. rewrite last_last. auto.
  - unfold update_author. mstep. views. rewrite Hin. mstep. rewrite Hs.
    mstep. rewrite last_last. auto.
  - unfold delete_author. mstep. views. rewrite Hin. mstep. rewrite Hs.
    mstep. rewrite last_last. auto.
  - unfold borrow_book. mstep. views. rewrite Hin. mstep. rewrite Hs.
    mstep. rewrite last_last. auto.
  - unfold return_book. mstep. views. rewrite Hin. mstep. rewrite Hs.
    mstep. rewrite last_last. auto.
Qed.

Lemma non_numeric_id_rejected_witness :
  let w := mkWorld demo_db ["one"; "yes"] [] in
  fst (delete_book cascading w) = Return false /\
  db (snd (delete_book cascading w)) = demo_db /\
  stdin (snd (delete_book cascading w)) = ["yes"].
Proof.
  cbn zeta.
  assert (H1 : DeleteBook <> AddBook) by discriminate.
  assert (H2 : DeleteBook <> AddAuthor) by discriminate.
  pose proof (non_numeric_id_rejected cascading demo_today DeleteBook
                (mkWorld demo_db ["one"; "yes"] []) "one" ["yes"]
                H1 H2 eq_refl eq_refl) as H.
  cbn zeta in H. cbn [run] in H. destruct H as [Ha [Hb [Hc _]]]. auto.
Defined.



(* ===================================================================== *)
(** ** Lending a book that is available *)
(* ===================================================================== *)










(* ===================================================================== *)
(** ** Titles *)
(* ===================================================================== *)




(* ===================================================================== *)
(** ** Adding books and authors: refusals and effects *)
(* ===================================================================== *)

(** X16. What [add_author] and [add_book] refuse before writing anything:
    a name or title that is blank once stripped (only that line is read),
    and a year line that [int] cannot read or that is out of range (below
    0, above the current year for a birth year, above the current year
    plus 10 for a publication year).  Each returns False and the tables
    are unchanged. *)
Theorem add_rejects_bad_input sch today (w : World) first rest :
  stdin w = first :: rest ->
  (Py.truthy (Py.strip first) = false ->
   (fst (add_author today w) = Return false
    /\ db (snd (add_author today w)) = db w
    /\ stdin (snd (add_author today w)) = rest)
   /\
   (fst (add_book sch today w) = Return false
    /\ db (snd (add_book sch today w)) = db w
    /\ stdin (snd (add_book sch today w)) = rest))
  /\
  (forall y rest',
      rest = y :: rest' -> Py.truthy (Py.strip first) = true ->
      (year_input (bad_birth_year today) y = None ->
       fst (add_author today w) = Return false
       /\ db (snd (add_author today w)) = db w
       /\ stdin (snd (add_author today w)) = rest')
      /\
      (year_input (bad_pub_year today) y = None ->
       fst (add_book sch today w) = Return false
       /\ db (snd (add_book sch today w)) = db w
       /\ stdin (snd (add_book sch today w)) = rest')).
Proof.
  intro Hin. split.
  - intro Hblank. split.
    + unfold add_author. mstep. rewrite Hin. mstep. rewrite Hblank.
      cbn [negb]. mstep. auto.
    + unfold add_book. mstep. rewrite Hin. mstep. rewrite Hblank.
      cbn [negb]. mstep. auto.
  - intros y rest' Hrest Hname. subst rest. split.
    + intro Hy. unfold year_input in Hy.
      unfold add_author. mstep. rewrite Hin. mstep. rewrite Hname.
      cbn [negb]. mstep.
      destruct (Py.truthy (Py.strip y)); [| discriminate].
      destruct (Py.int (Py.strip y)) as [n|]; mstep; [| auto].
      destruct (bad_birth_year today n); [| discriminate]. mstep. auto.
    + intro Hy. unfold year_input in Hy.
      unfold add_book. mstep. rewrite Hin. mstep. rewrite Hname.
      cbn [negb]. mstep.
      destruct (Py.truthy (Py.strip y)); [| discriminate].
      destruct (Py.int (Py.strip y)) as [n|]; mstep; [| auto].
      destruct (bad_pub_year today n); [| discriminate]. mstep. auto.
Qed.

Lemma add_rejects_bad_input_witness :
  let w := mkWorld demo_db ["Plato"; "-400"; "x"] [] in
  fst (add_author demo_today w) = Return false /\
  db (snd (add_author demo_today w)) = demo_db /\
  stdin (snd (add_author demo_today w)) = ["x"].
Proof.
  cbn zeta.
  exact (proj1 (proj2 (add_rejects_bad_input cascading demo_today
                         (mkWorld demo_db ["Plato"; "-400"; "x"] [])
                         "Plato" ["-400"; "x"] eq_refl)
                  "-400" ["x"] eq_refl eq_refl) eq_refl).
Defined.










(* ===================================================================== *)
(** ** The listings *)
(* ===================================================================== *)

Lemma unique_filter_le {A} (f : A -> Z) (l : list A) (k : Z) :
  NoDup (map f l) ->
  (List.length (filter (fun x => (k =? f x)%Z) l) <= 1)%nat.
Proof.
  induction l as [|a l IH]; cbn [map filter]; intro Hnd; [cbn; lia |].
  inversion Hnd as [|? ? Hnotin Hnd']; subst.
  destruct (k =? f a) eqn:E; [| exact (IH Hnd')].
  apply Z.eqb_eq in E. subst k. cbn [List.length].
  rewrite filter_nil; [cbn; lia |]. intros x Hx.
  apply Z.eqb_neq. intro E. apply Hnotin. rewrite E. apply in_map. exact Hx.
Qed.

Lemma append_assoc_string (a b c : string) : (a +++ b) +++ c = a +++ b +++ c.
Proof.
  induction a as [|x a IH]; cbn [String.append]; [reflexivity |].
  rewrite IH. reflexivity.
Qed.

Lemma left_join_one d b :
  unique_author_ids d -> List.length (left_join_author d b) = 1%nat.
Proof.
  intro Hu. unfold left_join_author.
  destruct (filter _ (Authors d)) as [|a [|a' l]] eqn:E; try reflexivity.
  exfalso. destruct (Book_AuthorID b) as [k|].
  - pose proof (unique_filter_le AuthorID (Authors d) k Hu) as H.
    cbn [opt_eqb] in E. rewrite E in H. cbn in H. lia.
  - cbn [opt_eqb] in E.
    rewrite filter_nil in E by reflexivity. discriminate.
Qed.

Lemma flat_map_length_one {A B} (f : A -> list B) (l : list A) :
  (forall x, In x l -> List.length (f x) = 1%nat) ->
  List.length (flat_map f l) = List.length l.
Proof.
  induction l as [|a l IH]; cbn [flat_map List.length]; intro H; [reflexivity |].
  rewrite length_app, (H a (or_introl eq_refl)), IH; [reflexivity |].
  intros x Hx. apply H. right. exact Hx.
Qed.

(** X20. The catalogue listing shows every book. The query behind
    [view_all_books] (a LEFT JOIN with Authors) yields a book with the
    name of each author that has its AuthorID, and a book whose AuthorID
    is NULL or matches no author once, without a name; it is then printed
    with "Unknown Author".  When the author ids are unique the query
    yields exactly one row per Books row, so "Total books" is the size of
    the table. *)
Theorem every_book_listed (d : DB) :
  (forall b a, In b (Books d) -> In a (Authors d) ->
               Book_AuthorID b = Some (AuthorID a) ->
               In (b, Some (AuthorName a)) (select_books_ordered d)) /\
  (forall b, In b (Books d) ->
             (forall k, Book_AuthorID b = Some k -> has_author d k = false) ->
             In (b, None) (select_books_ordered d)) /\
  (forall b, exists cells,
      book_line (b, None) = cells +++ Py.ljust 20 "Unknown Author") /\
  (unique_author_ids d ->
   List.length (select_books_ordered d) = List.length (Books d)).
Proof.
  split; [| split; [| split]].
  - intros b a Hb Ha Hk. unfold select_books_ordered. apply order_by_In.
    apply in_flat_map. exists b. split; [exact Hb |].
    unfold left_join_author.
    assert (Hin : In a (filter (fun a0 => opt_eqb (Book_AuthorID b) (AuthorID a0))
                          (Authors d))).
    { apply filter_In. split; [exact Ha |]. rewrite Hk. cbn [opt_eqb].
      apply Z.eqb_refl. }
    destruct (filter _ (Authors d)) as [|x l]; [contradiction |].
    apply (in_map (fun a0 => (b, Some (AuthorName a0)))). exact Hin.
  - intros b Hb Hno. unfold select_books_ordered. apply order_by_In.
    apply in_flat_map. exists b. split; [exact Hb |].
    unfold left_join_author. rewrite filter_nil; [left; reflexivity |].
    intros a Ha. destruct (Book_AuthorID b) as [k|] eqn:E; [| reflexivity].
    cbn [opt_eqb]. apply Z.eqb_neq. intro Ek.
    specialize (Hno k eq_refl). unfold has_author in Hno.
    assert (existsb (fun a0 => AuthorID a0 =? k) (Authors d) = true).
    { apply existsb_exists. exists a. split; [exact Ha |].
      apply Z.eqb_eq. congruence. }
    congruence.
  - intro b. unfold book_line. cbn [snd fst].
    exists (Py.ljust 4 (Py.str (BookID b)) +++ " "
            +++ Py.ljust 30 (clip 30 27 (Title b)) +++ " "
            +++ Py.ljust 6 (year_cell (PublicationYear b)) +++ " ").
    rewrite !append_assoc_string. reflexivity.
  - intro Hu. unfold select_books_ordered.
    rewrite (Permutation_length (order_by_perm _ _)).
    apply flat_map_length_one. intros b _. apply left_join_one. exact Hu.
Qed.



(* ===================================================================== *)
(** ** Updating an author: refusals *)
(* ===================================================================== *)


